(** * Financial dashboard: the data-access layer and its invoice actions

    A shallow embedding of [src/app/lib/data.ts], [src/app/lib/actions.ts]
    and [src/app/lib/dbConnection.js].

    Every exported function of the repository is an [async] function that
    talks to a PostgreSQL server through the [pg] driver.  The embedding
    runs one call at a time against an explicit [World] (the store, the
    outcome of the coming driver calls, the clock) and returns, with the
    completion of the call, the world it leaves and the list of [Event]s
    it caused: connections made and ended, statements run, lines logged,
    paths revalidated, redirects.

    What is modelled from the environment rather than from the repository:
    - the [pg] driver: [connect] and [query] resolve or reject as the
      world's fault plan says, a client settles its queries in the order
      of the calls, [end] always resolves;
    - the SQL statements, read off the query texts of the source, over
      the schema of the specification;
    - [zod]'s [parse] and [safeParse] for the one schema the source declares;
    - [Number(...)] on form entries and the arithmetic on amounts, as
      IEEE-754 binary64 (the primitive floats): [amount * 100] is a
      binary floating-point product and is not always an integer;
    - [revalidatePath] and [redirect] of Next.js ([redirect] throws its
      signal).

    [actions.ts] imports [connectClient] from the data module, which
    declares the function without exporting it: the imported binding is
    [undefined], and the three actions throw where they call it.  The
    second copy of the data layer, which follows the logger in [logger.ts], differs from
    [data.ts] by its logging and its [noStore()] calls; it is not embedded
    separately. *)

From Stdlib Require Import ZArith QArith Qround List String Ascii Bool Lia.
From Stdlib Require Import PrimFloat SpecFloat FloatOps FloatAxioms Uint63.
From stdpp Require Import base option list gmap strings pretty sorting.
Import ListNotations.

Local Open Scope string_scope.
Local Open Scope Z_scope.
Local Open Scope list_scope.
Set Warnings "-register-all".

(* ===================================================================== *)
(** * JavaScript numbers read from text *)
(* ===================================================================== *)

Module JSNum.

(** [Number(z)] for an integer [z]: the nearest binary64 value. *)
Definition of_Z (z : Z) : float :=
  SF2Prim (binary_normalize prec emax z 0 false).

(** The integer a finite, integer-valued double denotes; [None] for a
    fraction, an infinity or NaN. *)
Definition to_Z_exact (f : float) : option Z :=
  match Prim2SF f with
  | S754_zero _ => Some 0
  | S754_finite s m e =>
      let v :=
        if (0 <=? e) then Some (Z.pos m * 2 ^ e)
        else if (Z.pos m mod 2 ^ (- e) =? 0) then Some (Z.pos m / 2 ^ (- e))
        else None in
      (fun z => if s then - z else z) <$> v
  | _ => None
  end.

(** [sign * m * 10^e] rounded to nearest, ties to even. *)
Definition of_decimal (neg : bool) (m : Z) (e : Z) : float :=
  match m with
  | Z.pos p =>
      if (0 <=? e)
      then SF2Prim (binary_normalize prec emax
                      (if neg then - (m * 10 ^ e) else m * 10 ^ e) 0 false)
      else match 10 ^ (- e) with
           | Z.pos d =>
               SF2Prim (SFdiv prec emax (S754_finite neg p 0)
                                        (S754_finite false d 0))
           | _ => nan
           end
  | _ => if neg then neg_zero else zero
  end.

Definition is_space (c : ascii) : bool :=
  let n := nat_of_ascii c in
  (n =? 32)%nat || (n =? 9)%nat || (n =? 10)%nat ||
  (n =? 11)%nat || (n =? 12)%nat || (n =? 13)%nat.

Fixpoint drop_spaces (s : list ascii) : list ascii :=
  match s with
  | c :: s' => if is_space c then drop_spaces s' else s
  | [] => []
  end.

(** [String.prototype.trim] restricted to the ASCII white space. *)
Definition trim (s : list ascii) : list ascii :=
  rev (drop_spaces (rev (drop_spaces s))).

Definition digit_of (base : Z) (c : ascii) : option Z :=
  let n := Z.of_nat (nat_of_ascii c) in
  let v :=
    if (48 <=? n) && (n <=? 57) then Some (n - 48)
    else if (97 <=? n) && (n <=? 102) then Some (n - 87)
    else if (65 <=? n) && (n <=? 70) then Some (n - 55)
    else None in
  match v with
  | Some d => if d <? base then Some d else None
  | None => None
  end.

(** Reads the longest run of digits: its value on top of [acc], its
    length, and what follows. *)
Fixpoint digits (base : Z) (s : list ascii) (acc : Z) (n : Z)
  : Z * Z * list ascii :=
  match s with
  | c :: s' =>
      match digit_of base c with
      | Some d => digits base s' (acc * base + d) (n + 1)
      | None => (acc, n, s)
      end
  | [] => (acc, n, [])
  end.

Definition take_sign (s : list ascii) : bool * list ascii :=
  match s with
  | "+"%char :: s' => (false, s')
  | "-"%char :: s' => (true, s')
  | _ => (false, s)
  end.

(** ExponentPart, when present. [None]: malformed. *)
Definition exponent (s : list ascii) : option Z :=
  match s with
  | [] => Some 0
  | c :: s' =>
      if (Ascii.eqb c "e" || Ascii.eqb c "E")%bool then
        let '(neg, s'') := take_sign s' in
        match digits 10 s'' 0 0 with
        | (v, n, []) => if 0 <? n then Some (if neg then - v else v) else None
        | _ => None
        end
      else None
  end.

(** StrUnsignedDecimalLiteral without [Infinity]. *)
Definition unsigned_decimal (neg : bool) (s : list ascii) : float :=
  let '(i, ni, s1) := digits 10 s 0 0 in
  let '(m, nf, s2) :=
    match s1 with
    | "."%char :: s1' => let '(m, nf, s2) := digits 10 s1' i 0 in (m, nf, s2)
    | _ => (i, 0, s1)
    end in
  if (ni + nf =? 0) then nan
  else match exponent s2 with
       | Some e => of_decimal neg m (e - nf)
       | None => nan
       end.

Definition radix_literal (base : Z) (s : list ascii) : float :=
  match digits base s 0 0 with
  | (v, n, []) => if 0 <? n then of_Z v else nan
  | _ => nan
  end.

Definition Infinity_text : list ascii := list_ascii_of_string "Infinity".

(** [Number(s)] for a string [s] (StringToNumber). *)
Definition of_string (s : string) : float :=
  let t := trim (list_ascii_of_string s) in
  match t with
  | [] => zero
  | "0"%char :: "x"%char :: r | "0"%char :: "X"%char :: r => radix_literal 16 r
  | "0"%char :: "o"%char :: r | "0"%char :: "O"%char :: r => radix_literal 8 r
  | "0"%char :: "b"%char :: r | "0"%char :: "B"%char :: r => radix_literal 2 r
  | _ =>
      let '(neg, r) := take_sign t in
      if bool_decide (r = Infinity_text)
      then (if neg then neg_infinity else infinity)
      else unsigned_decimal neg r
  end.

End JSNum.

(* ===================================================================== *)
(** * The backing store *)
(* ===================================================================== *)

(** The repository does not create the schema; it is "assumed
    pre-existing".  Section 6 of the specification gives it as
    [invoices(id, customer_id, amount int, status text, date date)],
    [customers(id, name, email, image_url)], [revenue(month, revenue)] and
    [users(id, email, password)]. *)
Module Sql.

Record Date := mkDate { year : Z; month : Z; day : Z }.

Record InvoiceRow := mkInvoice {
  inv_id : string;
  inv_customer_id : string;
  inv_amount : Z;            (* integer cents *)
  inv_status : string;
  inv_date : Date
}.

Record CustomerRow := mkCustomer {
  cus_id : string;
  cus_name : string;
  cus_email : string;
  cus_image_url : string
}.

Record RevenueRow := mkRevenue { rev_month : string; rev_revenue : Z }.

Record UserRow := mkUser {
  usr_id : string;
  usr_email : string;
  usr_password : string
}.

Record Database := mkDatabase {
  invoices : list InvoiceRow;
  customers : list CustomerRow;
  revenue : list RevenueRow;
  users : list UserRow;
  (** the ids the [id] column's default hands out to the coming inserts *)
  fresh_ids : list string
}.

#[global] Instance Date_eq_dec : EqDecision Date.
Proof. solve_decision. Defined.
#[global] Instance CustomerRow_eq_dec : EqDecision CustomerRow.
Proof. solve_decision. Defined.

(** ** Dates: order and text form *)

Definition date_leb (a b : Date) : bool :=
  (year a <? year b) ||
  ((year a =? year b) &&
   ((month a <? month b) ||
    ((month a =? month b) && (day a <=? day b)))).

Definition pad (width : nat) (z : Z) : string :=
  let t := pretty z in
  String.concat EmptyString (replicate (width - String.length t) "0") +:+ t.

(** [date::text] under the ISO date style: [YYYY-MM-DD]. *)
Definition date_text (d : Date) : string :=
  pad 4 (year d) +:+ "-" +:+ pad 2 (month d) +:+ "-" +:+ pad 2 (day d).

(** The server's reading of a date parameter written [Y-M-D]. *)
Definition date_in (s : string) : option Date :=
  let '(y, ny, r1) := JSNum.digits 10 (list_ascii_of_string s) 0 0 in
  match r1 with
  | "-"%char :: r1' =>
      let '(m, nm, r2) := JSNum.digits 10 r1' 0 0 in
      match r2 with
      | "-"%char :: r2' =>
          match JSNum.digits 10 r2' 0 0 with
          | (d, nd, []) =>
              if (0 <? ny) && (0 <? nm) && (0 <? nd) &&
                 (1 <=? m) && (m <=? 12) && (1 <=? d) && (d <=? 31)
              then Some (mkDate y m d) else None
          | _ => None
          end
      | _ => None
      end
  | _ => None
  end.

(** The server's reading of a numeric parameter bound to an [int]
    column: the driver sends the number's decimal text, and the text
    must be an integer of 32 bits. *)
Definition int4_in (x : float) : option Z :=
  match JSNum.to_Z_exact x with
  | Some z => if (- 2 ^ 31 <=? z) && (z <? 2 ^ 31) then Some z else None
  | None => None
  end.

(** ** ILIKE *)

Definition lower (c : ascii) : ascii :=
  let n := nat_of_ascii c in
  if ((65 <=? n) && (n <=? 90))%nat then ascii_of_nat (n + 32) else c.

(** [like p s]: [s] matches the LIKE pattern [p]; [%] is any run of
    characters, [_] any one character, a backslash quotes the next
    pattern character. *)
Fixpoint like (p : list ascii) (s : list ascii) {struct p} : bool :=
  match p with
  | [] => match s with [] => true | _ => false end
  | c :: p' =>
      if Ascii.eqb c "%" then
        (fix any (s : list ascii) : bool :=
           like p' s || match s with [] => false | _ :: s' => any s' end) s
      else if Ascii.eqb c "_" then
        match s with [] => false | _ :: s' => like p' s' end
      else if Ascii.eqb c "\" then
        match p' with
        | q :: p'' =>
            match s with
            | x :: s' => Ascii.eqb q x && like p'' s'
            | [] => false
            end
        | [] => false
        end
      else
        match s with
        | x :: s' => Ascii.eqb c x && like p' s'
        | [] => false
        end
  end.

(** [s ILIKE p]: LIKE on the lower-cased text and pattern. *)
Definition ilike (s p : string) : bool :=
  like (map lower (list_ascii_of_string p)) (map lower (list_ascii_of_string s)).

(** ** The rows the statements return

    The amount column is a parameter of the row types that carry it: the
    server returns integer cents, and the callers replace the field by a
    formatted text or by dollars. *)

Record LatestInvoice (N : Type) := mkLatestInvoice {
  li_amount : N;
  li_name : string;
  li_image_url : string;
  li_email : string;
  li_id : string
}.

Record CountRow := mkCount { count : Z }.

(** [SUM] over no row is NULL. *)
Record StatusSumRow := mkStatusSum { paid : option Z; pending : option Z }.

Record InvoicesTable := mkInvoicesTable {
  it_id : string;
  it_amount : Z;
  it_date : Date;
  it_status : string;
  it_name : string;
  it_email : string;
  it_image_url : string
}.

Record InvoiceForm (N : Type) := mkInvoiceForm {
  if_id : string;
  if_customer_id : string;
  if_amount : N;
  if_status : string
}.

Record CustomerField := mkCustomerField { cf_id : string; cf_name : string }.

Record CustomersTable (N : Type) := mkCustomersTable {
  ct_id : string;
  ct_name : string;
  ct_email : string;
  ct_image_url : string;
  ct_total_invoices : Z;
  ct_total_pending : N;
  ct_total_paid : N
}.

Arguments mkLatestInvoice {N}. Arguments li_amount {N}. Arguments li_name {N}.
Arguments li_image_url {N}. Arguments li_email {N}. Arguments li_id {N}.
Arguments mkInvoiceForm {N}. Arguments if_id {N}. Arguments if_customer_id {N}.
Arguments if_amount {N}. Arguments if_status {N}.
Arguments mkCustomersTable {N}. Arguments ct_id {N}. Arguments ct_name {N}.
Arguments ct_email {N}. Arguments ct_image_url {N}.
Arguments ct_total_invoices {N}. Arguments ct_total_pending {N}.
Arguments ct_total_paid {N}.

(** ** The statements of the source, with their parameters *)

Inductive Statement :=
| SelectRevenue
| SelectLatestInvoices
| CountInvoices
| CountCustomers
| SumInvoicesByStatus
| SelectFilteredInvoices (pattern : string) (limit offset : Z)
| CountFilteredInvoices (pattern : string)
| SelectInvoiceById (id : string)
| SelectCustomers
| SelectFilteredCustomers (pattern : string)
| SelectUserByEmail (email : string)
| InsertInvoice (customer_id : string) (amount : float) (status date : string)
| UpdateInvoice (customer_id : string) (amount : float) (status id : string)
| DeleteInvoice (id : string).

Definition rows_of (s : Statement) : Type :=
  match s with
  | SelectRevenue => list RevenueRow
  | SelectLatestInvoices => list (LatestInvoice Z)
  | CountInvoices | CountCustomers | CountFilteredInvoices _ => list CountRow
  | SumInvoicesByStatus => list StatusSumRow
  | SelectFilteredInvoices _ _ _ => list InvoicesTable
  | SelectInvoiceById _ => list (InvoiceForm Z)
  | SelectCustomers => list CustomerField
  | SelectFilteredCustomers _ => list (CustomersTable Z)
  | SelectUserByEmail _ => list UserRow
  | InsertInvoice _ _ _ _ | UpdateInvoice _ _ _ _ | DeleteInvoice _ => unit
  end.

(** ** Building blocks of the queries *)

(** [invoices JOIN customers ON invoices.customer_id = customers.id] *)
Definition invoices_join_customers (d : Database)
  : list (InvoiceRow * CustomerRow) :=
  flat_map (fun i =>
              map (fun c => (i, c))
                  (filter (fun c => inv_customer_id i = cus_id c) (customers d)))
           (invoices d).

(** The WHERE clause shared by the invoice list and its page count. *)
Definition invoice_search (pattern : string) (r : InvoiceRow * CustomerRow) : bool :=
  ilike (cus_name r.2) pattern ||
  ilike (cus_email r.2) pattern ||
  ilike (pretty (inv_amount r.1)) pattern ||
  ilike (date_text (inv_date r.1)) pattern ||
  ilike (inv_status r.1) pattern.

Definition matching_invoices (pattern : string) (d : Database)
  : list (InvoiceRow * CustomerRow) :=
  filter (fun r => invoice_search pattern r = true) (invoices_join_customers d).

(** [ORDER BY invoices.date DESC] *)
Definition date_desc : relation (InvoiceRow * CustomerRow) :=
  fun a b => date_leb (inv_date b.1) (inv_date a.1) = true.

#[global] Instance date_desc_dec : RelDecision date_desc.
Proof. intros a b. unfold date_desc. apply _. Defined.

(** [ORDER BY name ASC], bytewise *)
Definition name_asc {A} (name : A -> string) : relation A :=
  fun a b => String.leb (name a) (name b) = true.

#[global] Instance name_asc_dec {A} (name : A -> string) : RelDecision (name_asc name).
Proof. intros a b. unfold name_asc. apply _. Defined.

Definition to_InvoicesTable (r : InvoiceRow * CustomerRow) : InvoicesTable :=
  mkInvoicesTable (inv_id r.1) (inv_amount r.1) (inv_date r.1) (inv_status r.1)
                  (cus_name r.2) (cus_email r.2) (cus_image_url r.2).

Definition to_LatestInvoice (r : InvoiceRow * CustomerRow) : LatestInvoice Z :=
  mkLatestInvoice (inv_amount r.1) (cus_name r.2) (cus_image_url r.2)
                  (cus_email r.2) (inv_id r.1).

(** [SUM(CASE WHEN status = s THEN amount ELSE 0 END)] over [l] *)
Definition sum_status (s : string) (l : list InvoiceRow) : Z :=
  foldr (fun i acc => (if bool_decide (inv_status i = s) then inv_amount i else 0) + acc)
        0 l.

Definition customer_search (pattern : string) (c : CustomerRow) : bool :=
  ilike (cus_name c) pattern || ilike (cus_email c) pattern.

(** One group of [customers LEFT JOIN invoices ... GROUP BY] the four
    customer columns: [copies] customer rows carry these columns. *)
Definition customer_totals (d : Database) (c : CustomerRow) : CustomersTable Z :=
  let copies := Z.of_nat (length (filter (fun c' => c' = c) (customers d))) in
  let mine := filter (fun i => inv_customer_id i = cus_id c) (invoices d) in
  mkCustomersTable (cus_id c) (cus_name c) (cus_email c) (cus_image_url c)
                   (copies * Z.of_nat (length mine))
                   (copies * sum_status "pending" mine)
                   (copies * sum_status "paid" mine).

Definition set_invoices (d : Database) (l : list InvoiceRow) : Database :=
  mkDatabase l (customers d) (revenue d) (users d) (fresh_ids d).

(** ** What the server does with a statement

    [inl msg]: the server rejects the statement (the texts are
    abbreviated); [inr (rows, d')]: the rows it returns and the store
    afterwards.

    [ORDER BY] is a stable sort of the rows in the order the store lists
    them.  That fixes the order of rows with equal sort keys, which the
    server leaves open and may choose differently from one statement to
    the next: the properties below either do not depend on the order of
    such rows or assume there are none. *)
Definition execute (s : Statement) (d : Database)
  : string + (rows_of s * Database) :=
  match s as s0 return string + (rows_of s0 * Database) with
  | SelectRevenue => inr (revenue d, d)
  | SelectLatestInvoices =>
      inr (map to_LatestInvoice
             (take 5 (merge_sort date_desc (invoices_join_customers d))), d)
  | CountInvoices => inr ([mkCount (Z.of_nat (length (invoices d)))], d)
  | CountCustomers => inr ([mkCount (Z.of_nat (length (customers d)))], d)
  | SumInvoicesByStatus =>
      inr ([match invoices d with
            | [] => mkStatusSum None None
            | l => mkStatusSum (Some (sum_status "paid" l))
                               (Some (sum_status "pending" l))
            end], d)
  | SelectFilteredInvoices p limit offset =>
      if limit <? 0 then inl "LIMIT must not be negative"
      else if offset <? 0 then inl "OFFSET must not be negative"
      else inr (map to_InvoicesTable
                  (take (Z.to_nat limit)
                     (drop (Z.to_nat offset)
                        (merge_sort date_desc (matching_invoices p d)))), d)
  | CountFilteredInvoices p =>
      inr ([mkCount (Z.of_nat (length (matching_invoices p d)))], d)
  | SelectInvoiceById id =>
      inr (map (fun i => mkInvoiceForm (inv_id i) (inv_customer_id i)
                                       (inv_amount i) (inv_status i))
               (filter (fun i => inv_id i = id) (invoices d)), d)
  | SelectCustomers =>
      inr (merge_sort (name_asc cf_name)
             (map (fun c => mkCustomerField (cus_id c) (cus_name c)) (customers d)), d)
  | SelectFilteredCustomers p =>
      inr (merge_sort (name_asc (@ct_name Z))
             (map (customer_totals d)
                (remove_dups
                   (filter (fun c => customer_search p c = true) (customers d)))), d)
  | SelectUserByEmail e =>
      inr (filter (fun u => usr_email u = e) (users d), d)
  | InsertInvoice c a st dt =>
      match int4_in a, date_in dt with
      | Some z, Some date =>
          inr (tt, mkDatabase
                     (invoices d ++ [mkInvoice (hd EmptyString (fresh_ids d)) c z st date])%list
                     (customers d) (revenue d) (users d) (tl (fresh_ids d)))
      | None, _ => inl "invalid input for type integer"
      | _, None => inl "invalid input syntax for type date"
      end
  | UpdateInvoice c a st id =>
      match int4_in a with
      | Some z =>
          inr (tt, set_invoices d
                     (map (fun i => if bool_decide (inv_id i = id)
                                    then mkInvoice (inv_id i) c z st (inv_date i)
                                    else i)
                          (invoices d)))
      | None => inl "invalid input for type integer"
      end
  | DeleteInvoice id =>
      inr (tt, set_invoices d (filter (fun i => inv_id i <> id) (invoices d)))
  end.
End Sql.

(* ===================================================================== *)
(** * Form data and the zod schema of [actions.ts] *)
(* ===================================================================== *)

Module Form.

(** A form entry is a string or a file. *)
Inductive FormDataEntryValue :=
| FString (s : string)
| FFile (name : string).

(** [FormData]: entries in order, names may repeat. *)
Definition FormData := list (string * FormDataEntryValue).

(** [formData.get(name)]: the first entry of that name, or [null]. *)
Fixpoint get (formData : FormData) (name : string) : option FormDataEntryValue :=
  match formData with
  | (k, v) :: rest => if bool_decide (k = name) then Some v else get rest name
  | [] => None
  end.

End Form.

Module Zod.
Import Form.

Inductive IssueCode := invalid_type | too_small | invalid_enum_value.

Record ZodIssue := mkIssue {
  issue_code : IssueCode;
  issue_path : string;
  issue_message : string
}.

Inductive InvoiceStatus := pending | paid.

Definition status_text (s : InvoiceStatus) : string :=
  match s with pending => "pending" | paid => "paid" end.

(** The object handed to the schema: one [formData.get] per key. *)
Record RawInvoice := mkRaw {
  raw_customerId : option FormDataEntryValue;
  raw_amount : option FormDataEntryValue;
  raw_status : option FormDataEntryValue
}.

(** What [FormSchema.omit({ id: true, date: true })] parses to. *)
Record InvoiceFields := mkFields {
  customerId : string;
  amount : float;
  status : InvoiceStatus
}.

(** [customerId: z.string({ invalid_type_error: ... })] *)
Definition parse_customerId (v : option FormDataEntryValue) : list ZodIssue + string :=
  match v with
  | Some (FString s) => inr s
  | _ => inl [mkIssue invalid_type "customerId" "Please select a customer."]
  end.

(** [Number(v)] for a form entry or [null]. *)
Definition coerce_number (v : option FormDataEntryValue) : float :=
  match v with
  | None => zero
  | Some (FString s) => JSNum.of_string s
  | Some (FFile _) => nan
  end.

(** [amount: z.coerce.number().gt(0, { message: ... })]: NaN is not a
    number for zod, and the check [gt(0)] reports [data <= 0]. *)
Definition parse_amount (v : option FormDataEntryValue) : list ZodIssue + float :=
  let data := coerce_number v in
  if is_nan data
  then inl [mkIssue invalid_type "amount" "Expected number, received nan"]
  else if PrimFloat.leb data 0
  then inl [mkIssue too_small "amount" "Please enter an amount greater than $0."]
  else inr data.

(** [status: z.enum(['pending', 'paid'], { invalid_type_error: ... })] *)
Definition parse_status (v : option FormDataEntryValue) : list ZodIssue + InvoiceStatus :=
  match v with
  | Some (FString s) =>
      if bool_decide (s = "pending") then inr pending
      else if bool_decide (s = "paid") then inr paid
      else inl [mkIssue invalid_enum_value "status"
                  ("Invalid enum value. Expected 'pending' | 'paid', received '"
                     +:+ s +:+ "'")]
  | _ => inl [mkIssue invalid_type "status" "Please select an invoice status."]
  end.

Definition issues_of {A} (r : list ZodIssue + A) : list ZodIssue :=
  match r with inl l => l | inr _ => [] end.

Inductive SafeParseResult :=
| Success (data : InvoiceFields)
| Failure (issues : list ZodIssue).

(** [safeParse] of the three-key object schema: every key is parsed, in
    the order of the schema, and the issues are collected. *)
Definition safeParse (raw : RawInvoice) : SafeParseResult :=
  match parse_customerId (raw_customerId raw),
        parse_amount (raw_amount raw),
        parse_status (raw_status raw) with
  | inr c, inr a, inr s => Success (mkFields c a s)
  | rc, ra, rs => Failure (issues_of rc ++ issues_of ra ++ issues_of rs)%list
  end.

(** [error.flatten().fieldErrors]: the messages grouped by key. *)
Definition fieldErrors (issues : list ZodIssue) : gmap string (list string) :=
  foldl (fun m i =>
           <[issue_path i := (default [] (m !! issue_path i) ++ [issue_message i])%list]> m)
        ∅ issues.

End Zod.

(* ===================================================================== *)
(** * Running asynchronous functions one call at a time *)
(* ===================================================================== *)

Module Run.
Import Sql.

(** What a JavaScript [throw] (or a rejected promise) carries. *)
Inductive js_error :=
| DriverError (msg : string)                     (* raised by pg or the server *)
| Error_ (message : string) (cause : option js_error)   (* new Error(message) *)
| ReferenceError (name : string)                 (* <name> is not defined *)
| TypeError (msg : string)
| ZodError (issues : list Zod.ZodIssue)
| NextRedirect (url : string).                   (* thrown by redirect(url) *)

(** A [pg.Client] object, named by the order of its creation. *)
Definition Client := nat.

Inductive Event :=
| Connected (c : Client)
| ConnectFailed (c : Client) (e : js_error)
| Queried (c : Client) (s : Statement)
| QueryFailed (c : Client) (s : Statement) (e : js_error)
| Ended (c : Client)
| ConsoleLog (label : string)
| ConsoleError (label : string) (e : js_error)
| RevalidatePath (path : string)
| Redirect (path : string).

Record World := mkWorld {
  database : Database;
  (** the outcome of the coming [connect] and [query] calls, in order:
      [Some msg] rejects the call with [msg]; past the end of the list
      nothing fails *)
  faults : list (option string);
  (** how many [Client] objects exist *)
  clients : nat;
  (** the UTC calendar date of [new Date()] *)
  today : Date
}.

(** How a statement list ends: by running off its end with a value for
    the code that follows, by [return], or by [throw]. *)
Inductive completion (R A : Type) :=
| Normal (a : A)
| Return (r : R)
| Throw (e : js_error).
Arguments Normal {R A}. Arguments Return {R A}. Arguments Throw {R A}.

Record Outcome (R A : Type) := mkOutcome {
  result : completion R A;
  world : World;
  events : list Event
}.
Arguments mkOutcome {R A}. Arguments result {R A}.
Arguments world {R A}. Arguments events {R A}.

(** Code inside a function whose [return] has type [R], that hands a
    value of type [A] to the code after it. *)
Definition Stmt (R A : Type) : Type := World -> Outcome R A.

Definition pure {R A} (a : A) : Stmt R A :=
  fun w => mkOutcome (Normal a) w [].

Definition return_ {R A} (r : R) : Stmt R A :=
  fun w => mkOutcome (Return r) w [].

Definition throw {R A} (e : js_error) : Stmt R A :=
  fun w => mkOutcome (Throw e) w [].

Definition bind {R A B} (m : Stmt R A) (k : A -> Stmt R B) : Stmt R B :=
  fun w =>
    let o := m w in
    match result o with
    | Normal a =>
        let o' := k a (world o) in
        mkOutcome (result o') (world o') (events o ++ events o')
    | Return r => mkOutcome (Return r) (world o) (events o)
    | Throw e => mkOutcome (Throw e) (world o) (events o)
    end.

(** [try { body } catch (error) { handler error } finally { cleanup }]:
    the cleanup runs whatever the body and the handler did, and keeps
    their completion unless it ends abruptly itself. *)
Definition try_catch_finally {R A}
  (body : Stmt R A) (handler : js_error -> Stmt R A) (cleanup : Stmt R unit)
  : Stmt R A :=
  fun w =>
    let o1 := body w in
    let o2 :=
      match result o1 with
      | Throw e =>
          let h := handler e (world o1) in
          mkOutcome (result h) (world h) (events o1 ++ events h)
      | _ => o1
      end in
    let o3 := cleanup (world o2) in
    mkOutcome
      match result o3 with
      | Normal _ => result o2
      | Return r => Return r
      | Throw e => Throw e
      end
      (world o3) (events o2 ++ events o3).

(** [try { body } catch (error) { handler error }] *)
Definition try_catch {R A}
  (body : Stmt R A) (handler : js_error -> Stmt R A) : Stmt R A :=
  fun w =>
    let o1 := body w in
    match result o1 with
    | Throw e =>
        let h := handler e (world o1) in
        mkOutcome (result h) (world h) (events o1 ++ events h)
    | _ => o1
    end.

(** [await f(...)] for a function [f] all of whose paths return or
    throw: its returned value is handed on. *)
Definition await_call {R R'} (f : Stmt R' Empty_set) : Stmt R R' :=
  fun w =>
    let o := f w in
    mkOutcome
      match result o with
      | Normal a => match a with end
      | Return r => Normal r
      | Throw e => Throw e
      end
      (world o) (events o).

Definition emit {R} (e : Event) : Stmt R unit :=
  fun w => mkOutcome (Normal tt) w [e].

(** ** The [pg] client *)

Definition next_fault (w : World) : option string :=
  match faults w with
  | f :: _ => f
  | [] => None
  end.

Definition consume_fault (w : World) : World :=
  mkWorld (database w) (tl (faults w)) (clients w) (today w).

Definition set_database (w : World) (d : Database) : World :=
  mkWorld d (faults w) (clients w) (today w).

(** [new Client(clientConfig)] *)
Definition new_Client {R} : Stmt R Client :=
  fun w => mkOutcome (Normal (clients w))
             (mkWorld (database w) (faults w) (S (clients w)) (today w)) [].

(** [await client.connect()] *)
Definition client_connect {R} (c : Client) : Stmt R unit :=
  fun w =>
    match next_fault w with
    | Some msg =>
        mkOutcome (Throw (DriverError msg)) (consume_fault w)
                  [ConnectFailed c (DriverError msg)]
    | None => mkOutcome (Normal tt) (consume_fault w) [Connected c]
    end.

(** [await client.query(text, values)]: [res.rows] *)
Definition client_query {R} (c : Client) (s : Statement) : Stmt R (rows_of s) :=
  fun w =>
    match next_fault w with
    | Some msg =>
        mkOutcome (Throw (DriverError msg)) (consume_fault w)
                  [QueryFailed c s (DriverError msg)]
    | None =>
        match execute s (database w) with
        | inl msg =>
            mkOutcome (Throw (DriverError msg)) (consume_fault w)
                      [QueryFailed c s (DriverError msg)]
        | inr (rows, d) =>
            mkOutcome (Normal rows) (set_database (consume_fault w) d)
                      [Queried c s]
        end
    end.

(** [client.query(text)] without [await].  The call is made and takes its
    entry of the fault plan; the promise it returns holds what the driver
    settles it with. *)
Record Promise (s : Statement) := mkPromise {
  owner : Client;
  settled : js_error + rows_of s
}.
Arguments mkPromise {s}. Arguments owner {s}. Arguments settled {s}.

Definition client_query_promise {R} (c : Client) (s : Statement)
  : Stmt R (Promise s) :=
  fun w =>
    match next_fault w with
    | Some msg =>
        mkOutcome (Normal (mkPromise c (inl (DriverError msg)))) (consume_fault w) []
    | None =>
        match execute s (database w) with
        | inl msg =>
            mkOutcome (Normal (mkPromise c (inl (DriverError msg)))) (consume_fault w) []
        | inr (rows, d) =>
            mkOutcome (Normal (mkPromise c (inr rows)))
                      (set_database (consume_fault w) d) []
        end
    end.

(** [await p]: the trace shows the statement when its promise settles. *)
Definition await {R} {s : Statement} (p : Promise s) : Stmt R (rows_of s) :=
  fun w =>
    match settled p with
    | inl e => mkOutcome (Throw e) w [QueryFailed (owner p) s e]
    | inr rows => mkOutcome (Normal rows) w [Queried (owner p) s]
    end.

(** [await Promise.all([p1, p2, p3])] for three queries of one client.
    The client runs its queries one after the other in the order of the
    calls, so the promises settle in that order, and the first rejection
    is the one [Promise.all] rejects with.  The promises behind it are
    still pending then; the driver rejects them when the client is ended,
    which nothing observes, and the trace does not show them. *)
Definition Promise_all3 {R} {s1 s2 s3 : Statement}
    (p1 : Promise s1) (p2 : Promise s2) (p3 : Promise s3)
  : Stmt R (rows_of s1 * rows_of s2 * rows_of s3) :=
  bind (await p1) (fun r1 =>
  bind (await p2) (fun r2 =>
  bind (await p3) (fun r3 =>
  pure (r1, r2, r3)))).

(** [await client.end()]: the driver's promise has no rejecting path. *)
Definition client_end {R} (c : Client) : Stmt R unit := emit (Ended c).

(** ** Console and Next.js *)

Definition console_log {R} (label : string) : Stmt R unit :=
  emit (ConsoleLog label).

Definition console_error {R} (label : string) (e : js_error) : Stmt R unit :=
  emit (ConsoleError label e).

Definition revalidatePath {R} (path : string) : Stmt R unit :=
  emit (RevalidatePath path).

(** [redirect(path)] never returns: it throws the redirect signal. *)
Definition redirect {R A} (path : string) : Stmt R A :=
  fun w => mkOutcome (Throw (NextRedirect path)) w [Redirect path].

(** Evaluating an identifier that no enclosing scope declares. *)
Definition unresolvable {R A} (name : string) : Stmt R A :=
  throw (ReferenceError name).

(** [x[0]] *)
Definition first {A} (x : list A) : option A := head x.

(** Reading a property of [x[0]]: a [TypeError] when [x] is empty. *)
Definition first_row {R A} (x : list A) : Stmt R A :=
  match x with
  | a :: _ => pure a
  | [] => throw (TypeError "Cannot read properties of undefined")
  end.

End Run.

Declare Scope stmt_scope.
Delimit Scope stmt_scope with stmt.
Notation "'let!' x ':=' m 'in' k" :=
  (Run.bind m (fun x => k))
  (at level 10, x name, m at level 100, k at level 200) : stmt_scope.
Notation "m ';;' k" :=
  (Run.bind m (fun _ => k))
  (at level 100, k at level 200, right associativity) : stmt_scope.
Notation "'try' b 'catch' x '=>' h 'finally' c" :=
  (Run.try_catch_finally b (fun x => h) c)
  (at level 10, x name, b at level 200, h at level 200, c at level 200) : stmt_scope.

(* ===================================================================== *)
(** * [src/app/lib/data.ts] *)
(* ===================================================================== *)

Module Data.
Import Sql Run.
Local Open Scope stmt_scope.

Definition ITEMS_PER_PAGE : Z := 6.

(** [Math.ceil] of a quotient of two integers.  The row count and the
    page size are integers far below 2^53, where the double quotient and
    its ceiling agree with the exact ones. *)
Definition Math_ceil (x : Q) : Z := Qceiling x.

Definition Number (z : Z) : Q := inject_Z z.

(** [`%${query}%`] *)
Definition pattern_of (query : string) : string := "%" +:+ query +:+ "%".

Definition connectClient : Stmt Client Empty_set :=
  let! client := new_Client in
  client_connect client ;;
  return_ client.

Record CardData := mkCardData {
  numberOfCustomers : Z;
  numberOfInvoices : Z;
  totalPaidInvoices : string;
  totalPendingInvoices : string
}.

Definition fetchRevenue : Stmt (list RevenueRow) Empty_set :=
  let! client := await_call connectClient in
  try
    (let! res := client_query client SelectRevenue in
     return_ res)
  catch error =>
    (console_error "Database Error:" error ;;
     throw (Error_ "Failed to fetch revenue data." None))
  finally
    client_end client.

Definition fetchFilteredInvoices (query : string) (currentPage : Z)
  : Stmt (list InvoicesTable) Empty_set :=
  let! client := await_call connectClient in
  let offset := (currentPage - 1) * ITEMS_PER_PAGE in
  try
    (let! res := client_query client
                   (SelectFilteredInvoices (pattern_of query) ITEMS_PER_PAGE offset) in
     return_ res)
  catch error =>
    (console_error "Database Error:" error ;;
     throw (Error_ "Failed to fetch invoices." None))
  finally
    client_end client.

Definition fetchInvoicesPages (query : string) : Stmt Z Empty_set :=
  let! client := await_call connectClient in
  try
    (let! res := client_query client (CountFilteredInvoices (pattern_of query)) in
     let! row := first_row res in
     let totalPages := Math_ceil (Number (count row) / Number ITEMS_PER_PAGE) in
     return_ totalPages)
  catch error =>
    (console_error "Database Error:" error ;;
     throw (Error_ "Failed to fetch total number of invoices." None))
  finally
    client_end client.

Definition fetchInvoiceById (id : string)
  : Stmt (option (InvoiceForm float)) Empty_set :=
  let! client := await_call connectClient in
  try
    (let! res := client_query client (SelectInvoiceById id) in
     let invoice :=
       map (fun invoice =>
              mkInvoiceForm (if_id invoice) (if_customer_id invoice)
                (PrimFloat.div (JSNum.of_Z (if_amount invoice)) 100)
                (if_status invoice))
           res in
     return_ (first invoice))
  catch error =>
    (console_error "Database Error:" error ;;
     throw (Error_ "Failed to fetch invoice." None))
  finally
    client_end client.

Definition fetchCustomers : Stmt (list CustomerField) Empty_set :=
  let! client := await_call connectClient in
  try
    (let! res := client_query client SelectCustomers in
     return_ res)
  catch error =>
    (console_error "Database Error:" error ;;
     throw (Error_ "Failed to fetch all customers." None))
  finally
    client_end client.

Definition getUser (email : string) : Stmt (option UserRow) Empty_set :=
  let! client := await_call connectClient in
  try
    (let! res := client_query client (SelectUserByEmail email) in
     return_ (first res))
  catch error =>
    (console_error "Failed to fetch user:" error ;;
     throw (Error_ "Failed to fetch user." None))
  finally
    client_end client.

Section WithUtils.

(** [formatCurrency] of [./utils], a file that is not part of the
    sources at hand: a parameter. *)
Variable formatCurrency : Z -> string.

Definition fetchLatestInvoices : Stmt (list (LatestInvoice string)) Empty_set :=
  let! client := await_call connectClient in
  try
    (let! res := client_query client SelectLatestInvoices in
     let latestInvoices :=
       map (fun invoice =>
              mkLatestInvoice (formatCurrency (li_amount invoice))
                (li_name invoice) (li_image_url invoice)
                (li_email invoice) (li_id invoice))
           res in
     return_ latestInvoices)
  catch error =>
    (console_error "Database Error:" error ;;
     throw (Error_ "Failed to fetch the latest invoices." None))
  finally
    client_end client.

(** The three [client.query] calls are made before anything is awaited;
    [Promise.all] then waits for the three promises. *)
Definition fetchCardData : Stmt CardData Empty_set :=
  let! client := await_call connectClient in
  try
    (let! invoiceCountPromise := client_query_promise client CountInvoices in
     let! customerCountPromise := client_query_promise client CountCustomers in
     let! invoiceStatusPromise := client_query_promise client SumInvoicesByStatus in
     let! all := Promise_all3 invoiceCountPromise customerCountPromise
                              invoiceStatusPromise in
     let '(invoiceCountRes, customerCountRes, invoiceStatusRes) := all in
     let! invoiceCount := first_row invoiceCountRes in
     let numberOfInvoices := count invoiceCount in
     let! customerCount := first_row customerCountRes in
     let numberOfCustomers := count customerCount in
     let! invoiceStatus := first_row invoiceStatusRes in
     let totalPaidInvoices := formatCurrency (default 0 (paid invoiceStatus)) in
     let totalPendingInvoices := formatCurrency (default 0 (pending invoiceStatus)) in
     return_ (mkCardData numberOfCustomers numberOfInvoices
                         totalPaidInvoices totalPendingInvoices))
  catch error =>
    (console_error "Database Error:" error ;;
     throw (Error_ "Failed to fetch card data." None))
  finally
    client_end client.

Definition fetchFilteredCustomers (query : string)
  : Stmt (list (CustomersTable string)) Empty_set :=
  let! client := await_call connectClient in
  try
    (let! res := client_query client (SelectFilteredCustomers (pattern_of query)) in
     let customers :=
       map (fun customer =>
              mkCustomersTable (ct_id customer) (ct_name customer)
                (ct_email customer) (ct_image_url customer)
                (ct_total_invoices customer)
                (formatCurrency (ct_total_pending customer))
                (formatCurrency (ct_total_paid customer)))
           res in
     return_ customers)
  catch error =>
    (console_error "Database Error:" error ;;
     throw (Error_ "Failed to fetch customer table." None))
  finally
    client_end client.

End WithUtils.

End Data.

(* ===================================================================== *)
(** * [src/app/lib/actions.ts] *)
(* ===================================================================== *)

Module Actions.
Import Sql Run Form Zod.
Local Open Scope stmt_scope.

(** [State]: what a mutation returns instead of throwing. *)
Record State := mkState {
  errors : option (gmap string (list string));
  message : option string
}.

Definition raw_of (formData : FormData) : RawInvoice :=
  mkRaw (get formData "customerId") (get formData "amount") (get formData "status").

(** [CreateInvoice] and [UpdateInvoice] are the same schema. *)
Definition CreateInvoice_safeParse : RawInvoice -> SafeParseResult := safeParse.

(** [UpdateInvoice.parse]: the parsed fields, or a thrown [ZodError]. *)
Definition UpdateInvoice_parse {R} (raw : RawInvoice) : Stmt R InvoiceFields :=
  match safeParse raw with
  | Success data => pure data
  | Failure issues => throw (ZodError issues)
  end.

(** [new Date().toISOString().split('T')[0]] *)
Definition today_text {R} : Stmt R string :=
  fun w => mkOutcome (Normal (date_text (today w))) w [].

(** [import { connectClient } from '@/app/lib/data'] (line 3).  [data.ts]
    declares [connectClient] (line 23) without [export] and exports nothing
    under that name, so the binding imported here holds [undefined]: the
    call [connectClient()] throws a [TypeError], before any client exists.
    (The text of the message depends on how the module was compiled; the
    properties do not rely on it.) *)
Definition connectClient {R} : Stmt R Client :=
  throw (TypeError "connectClient is not a function").

(** The body names [amount], [customerId] and [status], which neither the
    function nor the module declares ([validatedFields.data] is never
    taken apart): evaluating them throws a [ReferenceError]. *)
Definition createInvoice (formData : FormData) : Stmt State Empty_set :=
  let validatedFields := CreateInvoice_safeParse (raw_of formData) in
  console_log "validatedFields" ;;
  match validatedFields with
  | Failure issues =>
      return_ (mkState (Some (fieldErrors issues))
                       (Some "Missing Fields. Failed to Create Invoice"))
  | Success _ =>
      let! amount := unresolvable "amount" in
      let amountInCents := PrimFloat.mul amount 100 in
      let! date := today_text in
      let! client := connectClient in
      (try
         (let! customerId := unresolvable "customerId" in
          let! status := unresolvable "status" in
          client_query client (InsertInvoice customerId amountInCents status date) ;;
          pure tt)
       catch error =>
         return_ (mkState None (Some "Database Error: Failed to Create Invoice"))
       finally
         client_end client) ;;
      revalidatePath "/dashboard/invoices" ;;
      redirect "/dashboard/invoices"
  end.

Definition updateInvoice (id : string) (formData : FormData) : Stmt State Empty_set :=
  let! fields := UpdateInvoice_parse (raw_of formData) in
  let amountInCents := PrimFloat.mul (amount fields) 100 in
  let! client := connectClient in
  (try
     (client_query client
        (UpdateInvoice (customerId fields) amountInCents
                       (status_text (status fields)) id) ;;
      pure tt)
   catch error =>
     return_ (mkState None (Some "Database Error: Failed to Update Invoice"))
   finally
     client_end client) ;;
  revalidatePath "/dashboard/invoices" ;;
  redirect "/dashboard/invoices".

Definition deleteInvoice (id : string) : Stmt State unit :=
  let! client := connectClient in
  (try
     (client_query client (DeleteInvoice id) ;;
      pure tt)
   catch error =>
     return_ (mkState None (Some "Database Error: Failed to Delete Invoice"))
   finally
     client_end client) ;;
  revalidatePath "/dashboard/invoices".

End Actions.

(* ===================================================================== *)
(** * [src/app/lib/dbConnection.js]: one shared client behind a flag *)
(* ===================================================================== *)

Module DbConnection.
Import Run.
Local Open Scope stmt_scope.

(** The module's two bindings: [const client] and [let isConnected]. *)
Record Module_ := mkModule {
  client : Client;
  isConnected : bool
}.

(** Loading the module: [new Client(...)] and [isConnected = false]. *)
Definition load {R} : Stmt R Module_ :=
  let! client := new_Client in
  pure (mkModule client false).

(** [connectClient()] against the module state [m]: the state after the
    call comes with the completion.  The function has no [return]. *)
Definition connectClient (m : Module_) : Stmt unit Module_ :=
  if negb (isConnected m) then
    try_catch
      (client_connect (client m) ;;
       pure (mkModule (client m) true))
      (fun err =>
         console_error "Failed to connect to the database:" err ;;
         throw err)
  else pure m.

(** The module state a call leaves behind: the assignment to
    [isConnected] happens only after [connect] resolved. *)
Definition state_after (m : Module_) (o : Outcome unit Module_) : Module_ :=
  match result o with
  | Normal m' => m'
  | _ => m
  end.

(** What code importing the module can do with its two exports. *)
Inductive Use :=
| CallConnectClient
| ClientQuery (s : Sql.Statement)
| ClientEnd.

Definition use (u : Use) (m : Module_) (w : World) : Module_ * World * list Event :=
  match u with
  | CallConnectClient =>
      let o := connectClient m w in
      (state_after m o, world o, events o)
  | ClientQuery s =>
      let o := client_query (R := unit) (client m) s w in
      (m, world o, events o)
  | ClientEnd =>
      let o := client_end (R := unit) (client m) w in
      (m, world o, events o)
  end.

Fixpoint uses (us : list Use) (m : Module_) (w : World)
  : Module_ * World * list Event :=
  match us with
  | [] => (m, w, [])
  | u :: us' =>
      let '(m1, w1, e1) := use u m w in
      let '(m2, w2, e2) := uses us' m1 w1 in
      (m2, w2, (e1 ++ e2)%list)
  end.

End DbConnection.

(* ===================================================================== *)
(** * The operation surface *)
(* ===================================================================== *)

Module Api.
Import Run.

(** How a call ends for its caller, without the returned value. *)
Inductive Exit :=
| Returned
| ReturnedUndefined
| Rejected (e : js_error).

Definition exit_of {R A} (c : completion R A) : Exit :=
  match c with
  | Normal _ => ReturnedUndefined
  | Return _ => Returned
  | Throw e => Rejected e
  end.

Definition observe {R A} (o : Outcome R A) : Exit * World * list Event :=
  (exit_of (result o), world o, events o).

Inductive Operation :=
| FetchRevenue
| FetchLatestInvoices
| FetchCardData
| FetchFilteredInvoices (query : string) (currentPage : Z)
| FetchInvoicesPages (query : string)
| FetchInvoiceById (id : string)
| FetchCustomers
| FetchFilteredCustomers (query : string)
| GetUser (email : string)
| CreateInvoice (formData : Form.FormData)
| UpdateInvoice (id : string) (formData : Form.FormData)
| DeleteInvoice (id : string).

Definition is_read (op : Operation) : bool :=
  match op with
  | CreateInvoice _ | UpdateInvoice _ _ | DeleteInvoice _ => false
  | _ => true
  end.

(** The message of the error a read operation throws from its [catch]. *)
Definition failure_message (op : Operation) : string :=
  match op with
  | FetchRevenue => "Failed to fetch revenue data."
  | FetchLatestInvoices => "Failed to fetch the latest invoices."
  | FetchCardData => "Failed to fetch card data."
  | FetchFilteredInvoices _ _ => "Failed to fetch invoices."
  | FetchInvoicesPages _ => "Failed to fetch total number of invoices."
  | FetchInvoiceById _ => "Failed to fetch invoice."
  | FetchCustomers => "Failed to fetch all customers."
  | FetchFilteredCustomers _ => "Failed to fetch customer table."
  | GetUser _ => "Failed to fetch user."
  | CreateInvoice _ => "Database Error: Failed to Create Invoice"
  | UpdateInvoice _ _ => "Database Error: Failed to Update Invoice"
  | DeleteInvoice _ => "Database Error: Failed to Delete Invoice"
  end.

Section WithUtils.
Variable formatCurrency : Z -> string.

Definition exec (op : Operation) (w : World) : Exit * World * list Event :=
  match op with
  | FetchRevenue => observe (Data.fetchRevenue w)
  | FetchLatestInvoices => observe (Data.fetchLatestInvoices formatCurrency w)
  | FetchCardData => observe (Data.fetchCardData formatCurrency w)
  | FetchFilteredInvoices q p => observe (Data.fetchFilteredInvoices q p w)
  | FetchInvoicesPages q => observe (Data.fetchInvoicesPages q w)
  | FetchInvoiceById id => observe (Data.fetchInvoiceById id w)
  | FetchCustomers => observe (Data.fetchCustomers w)
  | FetchFilteredCustomers q => observe (Data.fetchFilteredCustomers formatCurrency q w)
  | GetUser email => observe (Data.getUser email w)
  | CreateInvoice fd => observe (Actions.createInvoice fd w)
  | UpdateInvoice id fd => observe (Actions.updateInvoice id fd w)
  | DeleteInvoice id => observe (Actions.deleteInvoice id w)
  end.
End WithUtils.

(** The first [n] driver calls that can fail do not. *)
Definition calls_succeed (n : nat) (w : World) : bool :=
  forallb (fun f => match f with None => true | Some _ => false end)
          (take n (faults w)).

(** The clients whose [connect] resolved, and the clients ended. *)
Definition opened (evs : list Event) : list Client :=
  omap (fun e => match e with Connected c => Some c | _ => None end) evs.

Definition closed (evs : list Event) : list Client :=
  omap (fun e => match e with Ended c => Some c | _ => None end) evs.

Definition connect_attempts (evs : list Event) : list Client :=
  omap (fun e => match e with
                 | Connected c | ConnectFailed c _ => Some c
                 | _ => None
                 end) evs.

Definition statements (evs : list Event) : list Sql.Statement :=
  omap (fun e => match e with
                 | Queried _ s | QueryFailed _ s _ => Some s
                 | _ => None
                 end) evs.

End Api.

(* ===================================================================== *)
(** * Vocabulary of the statements, and a small store to run on *)
(* ===================================================================== *)

Module Terms.
Import Sql Run Api.

(** How many joined invoice rows the search filter of [query] keeps. *)
Definition matching_count (query : string) (w : World) : Z :=
  Z.of_nat (length (matching_invoices (Data.pattern_of query) (database w))).

(** [InvoicesTable] rows in the order [ORDER BY invoices.date DESC]. *)
Definition newest_first : relation InvoicesTable :=
  fun a b => date_leb (it_date b) (it_date a) = true.

(** The text logged next to the caught error. *)
Definition log_label (op : Operation) : string :=
  match op with
  | GetUser _ => "Failed to fetch user:"
  | _ => "Database Error:"
  end.

(** What a read operation is said to fetch. *)
Definition resource (op : Operation) : string :=
  match op with
  | FetchRevenue => "revenue data"
  | FetchLatestInvoices => "the latest invoices"
  | FetchCardData => "card data"
  | FetchFilteredInvoices _ _ => "invoices"
  | FetchInvoicesPages _ => "total number of invoices"
  | FetchInvoiceById _ => "invoice"
  | FetchCustomers => "all customers"
  | FetchFilteredCustomers _ => "customer table"
  | GetUser _ => "user"
  | _ => EmptyString
  end.

(** The statements a read operation sends, in the order of its calls. *)
Definition op_statements (op : Operation) : list Statement :=
  match op with
  | FetchRevenue => [SelectRevenue]
  | FetchLatestInvoices => [SelectLatestInvoices]
  | FetchCardData => [CountInvoices; CountCustomers; SumInvoicesByStatus]
  | FetchFilteredInvoices query currentPage =>
      [SelectFilteredInvoices (Data.pattern_of query) Data.ITEMS_PER_PAGE
         ((currentPage - 1) * Data.ITEMS_PER_PAGE)]
  | FetchInvoicesPages query => [CountFilteredInvoices (Data.pattern_of query)]
  | FetchInvoiceById id => [SelectInvoiceById id]
  | FetchCustomers => [SelectCustomers]
  | FetchFilteredCustomers query => [SelectFilteredCustomers (Data.pattern_of query)]
  | GetUser email => [SelectUserByEmail email]
  | _ => []
  end.

(** The shape every operation shares: connect, then run [body] on the
    client inside [try], [handler] in [catch], and end the client in
    [finally]. *)
Definition scoped {R A} (body : Client -> Stmt R A) (handler : js_error -> Stmt R A)
  : Stmt R A :=
  bind (await_call Data.connectClient)
       (fun client => try_catch_finally (body client) handler (client_end client)).

(** The world in which the body of an operation starts: one more client
    exists, and [connect] has used up its entry of the fault plan. *)
Definition connected (w : World) : World :=
  mkWorld (database w) (tl (faults w)) (S (clients w)) (today w).

(** The world after the connection and one statement that left the store
    as it was. *)
Definition served (w : World) : World :=
  mkWorld (database w) (tl (tl (faults w))) (S (clients w)) (today w).

(** Code that neither connects nor ends a client. *)
Definition neutral {R A} (m : Stmt R A) : Prop :=
  forall w, connect_attempts (events (m w)) = [] /\ closed (events (m w)) = [].

(** Code that ends every client it connected, once, and connects at most
    one. *)
Definition balanced {R A} (m : Stmt R A) : Prop :=
  forall w,
    closed (events (m w)) = opened (events (m w)) /\
    (length (connect_attempts (events (m w))) <= 1)%nat /\
    (length (opened (events (m w))) <= 1)%nat.

(** The three conditions of the schema, on what [formData.get] returned. *)
Definition is_string (v : option Form.FormDataEntryValue) : bool :=
  match v with Some (Form.FString _) => true | _ => false end.

Definition greater_than_zero (v : option Form.FormDataEntryValue) : bool :=
  PrimFloat.ltb 0 (Zod.coerce_number v).

Definition is_status (v : option Form.FormDataEntryValue) : bool :=
  match v with
  | Some (Form.FString s) => bool_decide (s = "pending") || bool_decide (s = "paid")
  | _ => false
  end.

Definition passes_validation (formData : Form.FormData) : bool :=
  is_string (Form.get formData "customerId") &&
  greater_than_zero (Form.get formData "amount") &&
  is_status (Form.get formData "status").

(** [amount * 100] for the amount entry of a form. *)
Definition cents_of (formData : Form.FormData) : float :=
  PrimFloat.mul (Zod.coerce_number (Form.get formData "amount")) 100.

(** [{ ...invoice, amount: invoice.amount / 100 }] *)
Definition in_dollars (invoice : InvoiceForm Z) : InvoiceForm float :=
  mkInvoiceForm (if_id invoice) (if_customer_id invoice)
    (PrimFloat.div (JSNum.of_Z (if_amount invoice)) 100) (if_status invoice).

(** The columns [fetchInvoiceById] selects. *)
Definition form_columns (i : InvoiceRow) : InvoiceForm Z :=
  mkInvoiceForm (inv_id i) (inv_customer_id i) (inv_amount i) (inv_status i).

(** An outcome with [evs] in front of its events. *)
Definition after {R A} (evs : list Event) (o : Outcome R A) : Outcome R A :=
  mkOutcome (result o) (world o) (evs ++ events o).

Definition is_log (e : Event) : bool :=
  match e with ConsoleError _ _ => true | _ => false end.

(** What the caller and the trace show of a failed statement. *)
Definition translated (op : Operation) (c : Client) (k : nat) (msg : string) (d : Database)
    (o : Exit * World * list Event) : Prop :=
  o.1.1 = Rejected (Error_ (failure_message op) None) /\
  (exists s, op_statements op !! k = Some s /\
             In (QueryFailed c s (DriverError msg)) o.2) /\
  List.filter is_log o.2 = [ConsoleError (log_label op) (DriverError msg)] /\
  opened o.2 = [c] /\ closed o.2 = [c] /\
  database o.1.2 = d.

End Terms.

Module Sample.
Import Sql Run Form.

Definition alice := mkCustomer "c1" "Alice Smith" "alice@example.com" "/customers/alice.png".
Definition bob := mkCustomer "c2" "Bob Jones" "bob@example.com" "/customers/bob.png".

Definition db : Database :=
  mkDatabase
    [ mkInvoice "i1" "c1" 5000 "paid" (mkDate 2024 1 3);
      mkInvoice "i2" "c1" 1250 "pending" (mkDate 2024 3 9);
      mkInvoice "i3" "c2" 99900 "paid" (mkDate 2023 12 24);
      mkInvoice "i4" "c1" 700 "paid" (mkDate 2024 2 14);
      mkInvoice "i5" "c1" 4200 "pending" (mkDate 2024 2 14);
      mkInvoice "i6" "c1" 13400 "paid" (mkDate 2022 7 1);
      mkInvoice "i7" "c1" 256 "pending" (mkDate 2024 4 30);
      mkInvoice "i8" "c1" 31000 "paid" (mkDate 2024 1 31) ]
    [ alice; bob ]
    [ mkRevenue "Jan" 2000; mkRevenue "Feb" 1800 ]
    [ mkUser "u1" "user@nextmail.com" "$2b$10$hash" ]
    [ "i9"; "i10" ].

(** No driver call fails. *)
Definition world : World := mkWorld db [] 0 (mkDate 2024 5 17).

(** The same store with no two invoices of one date. *)
Definition calendar : Database :=
  set_invoices db
    [ mkInvoice "i1" "c1" 5000 "paid" (mkDate 2024 1 3);
      mkInvoice "i2" "c1" 1250 "pending" (mkDate 2024 3 9);
      mkInvoice "i3" "c2" 99900 "paid" (mkDate 2023 12 24);
      mkInvoice "i4" "c1" 700 "paid" (mkDate 2024 2 14);
      mkInvoice "i5" "c1" 4200 "pending" (mkDate 2024 2 15);
      mkInvoice "i6" "c1" 13400 "paid" (mkDate 2022 7 1);
      mkInvoice "i7" "c1" 256 "pending" (mkDate 2024 4 30);
      mkInvoice "i8" "c1" 31000 "paid" (mkDate 2024 1 31) ].

Definition calendar_world : World := mkWorld calendar [] 0 (mkDate 2024 5 17).

(** The server cannot be reached. *)
Definition offline : World :=
  mkWorld db [Some "connect ECONNREFUSED"] 0 (mkDate 2024 5 17).

(** The connection is made, the first statement fails. *)
Definition failing_statement : World :=
  mkWorld db [None; Some "canceling statement due to statement timeout"] 0
          (mkDate 2024 5 17).

(** The connection is made, the third statement fails. *)
Definition failing_third_statement : World :=
  mkWorld db [None; None; None; Some "canceling statement due to statement timeout"] 0
          (mkDate 2024 5 17).

(** The first connection attempt fails, the later ones do not. *)
Definition flaky : World :=
  mkWorld db [Some "connect ETIMEDOUT"; None] 0 (mkDate 2024 5 17).

Definition form (customerId amount status : string) : FormData :=
  [ ("customerId", FString customerId);
    ("amount", FString amount);
    ("status", FString status) ].

Definition formatCurrency (cents : Z) : string := "$" +:+ pretty cents.

End Sample.

(* ===================================================================== *)
(** * [src/unnamed/part_000]: the connection test script *)
(* ===================================================================== *)

Module ConnectionTest.
Import Run.
Local Open Scope stmt_scope.

Section Catalog.

(** What the server's catalog answers: the name of the current database
    and the names of the tables of the schema [public]. *)
Variable current_database : string.
Variable table_names : list string.

(** [await client.query(text)] for one of the two catalog statements,
    whose rows are [rows]: the call takes its entry of the fault plan.
    The statements do not read the store's tables and leave no event. *)
Definition catalog_query {R A} (rows : list A) : Stmt R (list A) :=
  fun w =>
    match next_fault w with
    | Some msg => mkOutcome (Throw (DriverError msg)) (consume_fault w) []
    | None => mkOutcome (Normal rows) (consume_fault w) []
    end.

(** [client.end()] is the last statement of the [try] block; there is no
    [finally]. *)
Definition testConnection : Stmt unit unit :=
  let! client := new_Client in
  try_catch
    (client_connect client ;;
     console_log "Connected to the database successfully." ;;
     let! res := catalog_query [current_database] in
     let! row := first_row res in
     console_log "Current database:" ;;
     let! tables := catalog_query table_names in
     (if (length tables =? 0)%nat
      then console_log "No tables found in the database."
      else console_log "Tables found in the database:") ;;
     client_end client)
    (fun err => console_error "Database connection error:" err).

End Catalog.

End ConnectionTest.

(* ===================================================================== *)
(** * Vocabulary of the further properties *)
(* ===================================================================== *)

Module Terms2.
Import Sql Run Api Terms.

(** The statements that only read. *)
Definition is_select (s : Statement) : bool :=
  match s with
  | InsertInvoice _ _ _ _ | Sql.UpdateInvoice _ _ _ _ | Sql.DeleteInvoice _ => false
  | _ => true
  end.

(** Code that leaves the store as it was and sends only reading
    statements. *)
Definition readonly {R A} (m : Stmt R A) : Prop :=
  forall w,
    database (world (m w)) = database w /\
    Forall (fun s => is_select s = true) (statements (events (m w))).

(** A text with its ASCII capitals made small. *)
Definition fold_case (s : string) : list ascii :=
  map lower (list_ascii_of_string s).

(** The value a call returned, [d] when it did not return one. *)
Definition returned {R A} (d : R) (c : completion R A) : R :=
  match c with Return r => r | _ => d end.

(** The rows of page [page] of the invoice list. *)
Definition page_rows (query : string) (page : Z) (w : World) : list InvoicesTable :=
  returned [] (result (Data.fetchFilteredInvoices query page w)).

(** The joined rows in the order of the invoice list. *)
Definition ordered_matching (query : string) (d : Database)
  : list (InvoiceRow * CustomerRow) :=
  merge_sort date_desc (matching_invoices (Data.pattern_of query) d).

(** Every driver event of [evs] is about the client [c]. *)
Definition names_only (c : Client) (evs : list Event) : Prop :=
  Forall (fun e => match e with
                   | Connected c' | ConnectFailed c' _ | Queried c' _
                   | QueryFailed c' _ _ | Ended c' => c' = c
                   | _ => True
                   end) evs.

(** The dates of joined rows. *)
Definition dates (l : list (InvoiceRow * CustomerRow)) : list Date :=
  map (fun r => inv_date r.1) l.

(** The [LatestInvoice] of a joined row, its amount formatted. *)
Definition latest_row (formatCurrency : Z -> string) (r : InvoiceRow * CustomerRow)
  : LatestInvoice string :=
  mkLatestInvoice (formatCurrency (inv_amount r.1)) (cus_name r.2) (cus_image_url r.2)
                  (cus_email r.2) (inv_id r.1).

(** The row of [fetchFilteredCustomers] for the customer [c]: the four
    columns, the number of the customer's invoices, and the formatted sums
    of their pending and of their paid amounts. *)
Definition customer_summary (formatCurrency : Z -> string) (d : Database)
    (c : CustomerRow) : CustomersTable string :=
  let mine := filter (fun i => inv_customer_id i = cus_id c) (invoices d) in
  mkCustomersTable (cus_id c) (cus_name c) (cus_email c) (cus_image_url c)
    (Z.of_nat (length mine))
    (formatCurrency (sum_status "pending" mine))
    (formatCurrency (sum_status "paid" mine)).

End Terms2.

(* ===================================================================== *)
(** * Properties *)
(* ===================================================================== *)

Import Sql Run Api Terms.

Arguments JSNum.of_string : simpl never.
Arguments JSNum.of_Z : simpl never.
Arguments execute : simpl never.
Arguments Data.Math_ceil : simpl never.

Lemma connectClient_run (w : World) :
  Data.connectClient w =
  let w' := consume_fault (mkWorld (database w) (faults w) (S (clients w)) (today w)) in
  match next_fault w with
  | Some msg => mkOutcome (Throw (DriverError msg)) w' [ConnectFailed (clients w) (DriverError msg)]
  | None => mkOutcome (Return (clients w)) w' [Connected (clients w)]
  end.
Proof.
  unfold Data.connectClient, bind, new_Client, client_connect, next_fault. cbn.
  destruct (faults w) as [|[msg|] fs]; reflexivity.
Qed.



(** ** Running the shared shape *)

Lemma scoped_run {R A} (body : Client -> Stmt R A) (handler : js_error -> Stmt R A)
    (w : World) :
  scoped body handler w =
  match next_fault w with
  | Some msg =>
      mkOutcome (Throw (DriverError msg)) (connected w)
                [ConnectFailed (clients w) (DriverError msg)]
  | None =>
      let o1 := body (clients w) (connected w) in
      match result o1 with
      | Throw e =>
          let h := handler e (world o1) in
          mkOutcome (result h) (world h)
                    (Connected (clients w) :: events o1 ++ events h ++ [Ended (clients w)])
      | r => mkOutcome r (world o1) (Connected (clients w) :: events o1 ++ [Ended (clients w)])
      end
  end.
Proof.
  unfold scoped, bind, await_call. rewrite connectClient_run.
  cbv zeta. destruct (next_fault w) as [msg|]; [reflexivity|].
  cbn [result world events]. unfold try_catch_finally, client_end, emit.
  change (consume_fault _) with (connected w).
  destruct (body (clients w) (connected w)) as [r1 w1 e1]. cbn [result world events].
  destruct r1; cbn [result world events]; try reflexivity.
  f_equal. cbn. now rewrite <- app_assoc.
Qed.

Ltac fold_scoped :=
  lazymatch goal with
  | |- context C [bind (await_call Data.connectClient)
                    (fun client => try_catch_finally (@?b client) ?h (client_end client))] =>
      let g := context C [scoped b h] in change g
  end.

Lemma bind_Normal {R A B} (m : Stmt R A) (k : A -> Stmt R B) w a w' evs :
  m w = mkOutcome (Normal a) w' evs ->
  bind m k w = after evs (k a w').
Proof. intros H. unfold bind. now rewrite H. Qed.

Lemma bind_pure {R A B} (a : A) (k : A -> Stmt R B) w :
  bind (pure a) k w = k a w.
Proof. unfold bind, pure. cbn. now destruct (k a w). Qed.

Lemma bind_Throw {R A B} (m : Stmt R A) (k : A -> Stmt R B) w e w' evs :
  m w = mkOutcome (Throw e) w' evs ->
  bind m k w = mkOutcome (Throw e) w' evs.
Proof. intros H. unfold bind. now rewrite H. Qed.

Lemma client_query_fault {R} c s w msg :
  next_fault w = Some msg ->
  client_query (R := R) c s w =
  mkOutcome (Throw (DriverError msg)) (consume_fault w) [QueryFailed c s (DriverError msg)].
Proof. intros H. unfold client_query. now rewrite H. Qed.

Lemma client_query_rejected {R} c s w msg :
  next_fault w = None -> execute s (database w) = inl msg ->
  client_query (R := R) c s w =
  mkOutcome (Throw (DriverError msg)) (consume_fault w) [QueryFailed c s (DriverError msg)].
Proof. intros H E. unfold client_query. now rewrite H, E. Qed.

Lemma client_query_ok {R} c s w rows d :
  next_fault w = None -> execute s (database w) = inr (rows, d) ->
  client_query (R := R) c s w =
  mkOutcome (Normal rows) (set_database (consume_fault w) d) [Queried c s].
Proof. intros H E. unfold client_query. now rewrite H, E. Qed.

Lemma calls_succeed_2 (w : World) :
  calls_succeed 2 w = true ->
  next_fault w = None /\ next_fault (connected w) = None.
Proof.
  destruct w as [d fs cl td]. unfold calls_succeed, next_fault, connected.
  cbn [faults]. destruct fs as [|[m1|] [|[m2|] fs]]; cbn; intros H; try discriminate; auto.
Qed.

(** ** Page count *)

Lemma Math_ceil_pages (n : Z) :
  let p := Data.Math_ceil (Data.Number n / Data.Number Data.ITEMS_PER_PAGE) in
  Data.ITEMS_PER_PAGE * (p - 1) < n <= Data.ITEMS_PER_PAGE * p.
Proof.
  unfold Data.Math_ceil, Data.Number, Data.ITEMS_PER_PAGE, Qceiling, Qfloor.
  cbn. rewrite Z.mul_1_r.
  pose proof (Z.div_mod (- n) 6 ltac:(lia)) as Hdm.
  pose proof (Z.mod_pos_bound (- n) 6 ltac:(lia)) as Hb.
  change (Z.pos (1 * 6)) with 6.
  lia.
Qed.

Lemma fetchInvoicesPages_run (query : string) (w : World) :
  calls_succeed 2 w = true ->
  result (Data.fetchInvoicesPages query w) =
  Return (Data.Math_ceil (Data.Number (matching_count query w)
                          / Data.Number Data.ITEMS_PER_PAGE)).
Proof.
  intros Hok. apply calls_succeed_2 in Hok as [H1 H2].
  unfold Data.fetchInvoicesPages. fold_scoped.
  rewrite scoped_run, H1. cbv zeta.
  erewrite bind_Normal by (apply client_query_ok; [exact H2 | reflexivity]).
  reflexivity.
Qed.

(** C3: when the connection is made and the count statement runs,
    [fetchInvoicesPages query] returns the ceiling of n / 6, where n is the
    number of invoice rows the search filter keeps: the least [p] with
    [n <= 6 * p].  It is 0 for n = 0, 1 for n = 6, 2 for n = 7. *)
Theorem fetchInvoicesPages_ceiling (query : string) (w : World) :
  calls_succeed 2 w = true ->
  exists p : Z,
    result (Data.fetchInvoicesPages query w) = Return p /\
    let n := matching_count query w in
    n <= p * Data.ITEMS_PER_PAGE /\
    (p - 1) * Data.ITEMS_PER_PAGE < n /\
    (n = 0 -> p = 0) /\ (n = 6 -> p = 1) /\ (n = 7 -> p = 2).
Proof.
  intros Hok. eexists. split; [apply fetchInvoicesPages_run, Hok|].
  pose proof (Math_ceil_pages (matching_count query w)) as H.
  cbv zeta in *. unfold Data.ITEMS_PER_PAGE in *. lia.
Qed.

Lemma fetchInvoicesPages_ceiling_witness :
  calls_succeed 2 Sample.world = true /\
  matching_count "ALICE" Sample.world = 7 /\
  result (Data.fetchInvoicesPages "ALICE" Sample.world) = Return 2.
Proof.
  split; [reflexivity|]. split; [vm_compute; reflexivity|].
  destruct (fetchInvoicesPages_ceiling "ALICE" Sample.world eq_refl)
    as (p & Hp & _ & _ & _ & _ & H7).
  rewrite Hp. f_equal. apply H7. vm_compute. reflexivity.
Defined.

(** ** The invoice list *)

Lemma date_leb_spec (a b : Date) :
  date_leb a b = true <->
  year a < year b \/
  (year a = year b /\ (month a < month b \/ (month a = month b /\ day a <= day b))).
Proof.
  unfold date_leb.
  rewrite !orb_true_iff, !andb_true_iff, !orb_true_iff, !andb_true_iff.
  rewrite !Z.ltb_lt, !Z.eqb_eq, Z.leb_le. tauto.
Qed.

#[local] Instance date_desc_total : Total date_desc.
Proof.
  intros a b. unfold date_desc. rewrite !date_leb_spec. lia.
Qed.

#[local] Instance date_desc_trans : Transitive date_desc.
Proof.
  intros a b c. unfold date_desc. rewrite !date_leb_spec. lia.
Qed.

Lemma StronglySorted_map {A B} (f : A -> B) (R1 : relation A) (R2 : relation B) l :
  (forall x y, R1 x y -> R2 (f x) (f y)) ->
  StronglySorted R1 l -> StronglySorted R2 (map f l).
Proof.
  intros Hf H. induction H as [|a l Hl IH Ha]; cbn; constructor.
  - exact IH.
  - clear Hl IH. induction Ha; cbn; constructor; auto.
Qed.

Lemma StronglySorted_take_drop {A} (R : relation A) (n k : nat) l :
  StronglySorted R l -> StronglySorted R (take n (drop k l)).
Proof.
  intros H.
  rewrite <- (take_drop k l) in H. apply StronglySorted_app_1_r in H.
  rewrite <- (take_drop n (drop k l)) in H. now apply StronglySorted_app_1_l in H.
Qed.

Lemma execute_SelectFilteredInvoices (p : string) (offset : Z) (d : Database) :
  0 <= offset ->
  execute (SelectFilteredInvoices p Data.ITEMS_PER_PAGE offset) d =
  inr (map to_InvoicesTable
         (take 6 (drop (Z.to_nat offset) (merge_sort date_desc (matching_invoices p d)))),
       d).
Proof.
  intros H. unfold execute, Data.ITEMS_PER_PAGE.
  change (6 <? 0) with false. cbv iota.
  destruct (Z.ltb_spec offset 0) as [Hneg|_]; [lia|reflexivity].
Qed.

Lemma fetchFilteredInvoices_run (query : string) (currentPage : Z) (w : World) :
  1 <= currentPage ->
  calls_succeed 2 w = true ->
  result (Data.fetchFilteredInvoices query currentPage w) =
  Return (map to_InvoicesTable
            (take 6 (drop (Z.to_nat ((currentPage - 1) * 6))
                       (merge_sort date_desc
                          (matching_invoices (Data.pattern_of query) (database w)))))).
Proof.
  intros Hp Hok. apply calls_succeed_2 in Hok as [H1 H2].
  unfold Data.fetchFilteredInvoices. cbv zeta. fold_scoped.
  rewrite scoped_run, H1. cbv zeta.
  erewrite bind_Normal
    by (apply client_query_ok; [exact H2 | apply execute_SelectFilteredInvoices;
                                            unfold Data.ITEMS_PER_PAGE; lia]).
  reflexivity.
Qed.

(** C7: for a page number [currentPage >= 1], when the connection is made
    and the statement runs, [fetchFilteredInvoices query currentPage]
    returns the rows that come after the first (currentPage - 1) * 6 of the
    matching rows taken newest first, and no more than 6 of them, in that
    order. *)
Theorem fetchFilteredInvoices_page (query : string) (currentPage : Z) (w : World) :
  1 <= currentPage ->
  calls_succeed 2 w = true ->
  exists (rows : list InvoicesTable) (ordered : list (InvoiceRow * CustomerRow)),
    result (Data.fetchFilteredInvoices query currentPage w) = Return rows /\
    ordered ≡ₚ matching_invoices (Data.pattern_of query) (database w) /\
    StronglySorted date_desc ordered /\
    rows = map to_InvoicesTable
             (take (Z.to_nat Data.ITEMS_PER_PAGE)
                (drop (Z.to_nat ((currentPage - 1) * Data.ITEMS_PER_PAGE)) ordered)) /\
    Z.of_nat (length rows) <= Data.ITEMS_PER_PAGE /\
    StronglySorted newest_first rows.
Proof.
  intros Hp Hok.
  eexists _, (merge_sort date_desc (matching_invoices (Data.pattern_of query) (database w))).
  split; [apply fetchFilteredInvoices_run; assumption|].
  split; [apply merge_sort_Permutation|].
  split; [apply StronglySorted_merge_sort; apply _|].
  split; [reflexivity|].
  split.
  - rewrite length_map, length_take. unfold Data.ITEMS_PER_PAGE. lia.
  - apply StronglySorted_map with (R1 := date_desc); [intros x y H; exact H|].
    apply StronglySorted_take_drop, StronglySorted_merge_sort; apply _.
Qed.

Lemma fetchFilteredInvoices_page_witness :
  exists rows,
    result (Data.fetchFilteredInvoices "alice" 2 Sample.world) = Return rows /\
    map it_id rows = ["i6"].
Proof.
  destruct (fetchFilteredInvoices_page "alice" 2 Sample.world ltac:(lia) eq_refl)
    as (rows & ordered & Hr & _).
  exists rows. split; [exact Hr|].
  rewrite fetchFilteredInvoices_run in Hr by (lia || reflexivity).
  injection Hr as <-. vm_compute. reflexivity.
Defined.


(** ** Connections are ended *)

Lemma opened_app l1 l2 : opened (l1 ++ l2) = opened l1 ++ opened l2.
Proof. apply omap_app. Qed.

Lemma closed_app l1 l2 : closed (l1 ++ l2) = closed l1 ++ closed l2.
Proof. apply omap_app. Qed.

Lemma connect_attempts_app l1 l2 :
  connect_attempts (l1 ++ l2) = connect_attempts l1 ++ connect_attempts l2.
Proof. apply omap_app. Qed.

Lemma opened_attempts l : connect_attempts l = [] -> opened l = [].
Proof.
  induction l as [|e l IH]; [reflexivity|].
  destruct e; cbn; try discriminate; exact IH.
Qed.

Lemma neutral_pure {R A} (a : A) : neutral (pure (R := R) a).
Proof. intros w. split; reflexivity. Qed.

Lemma neutral_return {R A} (r : R) : neutral (return_ (A := A) r).
Proof. intros w. split; reflexivity. Qed.

Lemma neutral_throw {R A} e : neutral (throw (R := R) (A := A) e).
Proof. intros w. split; reflexivity. Qed.

Lemma neutral_bind {R A B} (m : Stmt R A) (k : A -> Stmt R B) :
  neutral m -> (forall a, neutral (k a)) -> neutral (bind m k).
Proof.
  intros Hm Hk w. unfold bind. destruct (Hm w) as [H1 H2].
  destruct (m w) as [[a|r|e] w1 e1]; cbn [result world events] in *; auto.
  destruct (Hk a w1) as [H3 H4].
  rewrite connect_attempts_app, closed_app, H1, H2, H3, H4. auto.
Qed.

Lemma neutral_client_query {R} c s : neutral (client_query (R := R) c s).
Proof.
  intros w. unfold client_query.
  destruct (next_fault w); [split; reflexivity|].
  destruct (execute s (database w)) as [msg|[rows d]]; split; reflexivity.
Qed.

Lemma neutral_client_query_promise {R} c s :
  neutral (client_query_promise (R := R) c s).
Proof.
  intros w. unfold client_query_promise.
  destruct (next_fault w); [cbn; auto|].
  destruct (execute s (database w)) as [msg|[rows d]]; cbn; auto.
Qed.

Lemma neutral_await {R} {s : Statement} (p : Promise s) : neutral (await (R := R) p).
Proof. intros w. unfold await. destruct (settled p); cbn; auto. Qed.

Lemma neutral_first_row {R A} (l : list A) : neutral (first_row (R := R) l).
Proof. destruct l; [apply neutral_throw | apply neutral_pure]. Qed.

Lemma neutral_console_error {R} label e : neutral (console_error (R := R) label e).
Proof. intros w. split; reflexivity. Qed.

Lemma neutral_console_log {R} label : neutral (console_log (R := R) label).
Proof. intros w. split; reflexivity. Qed.

Lemma neutral_revalidatePath {R} path : neutral (revalidatePath (R := R) path).
Proof. intros w. split; reflexivity. Qed.

Lemma neutral_redirect {R A} path : neutral (redirect (R := R) (A := A) path).
Proof. intros w. split; reflexivity. Qed.

Lemma neutral_today_text {R} : neutral (Actions.today_text (R := R)).
Proof. intros w. split; reflexivity. Qed.

Lemma neutral_parse {R} raw : neutral (Actions.UpdateInvoice_parse (R := R) raw).
Proof.
  unfold Actions.UpdateInvoice_parse.
  destruct (Zod.safeParse raw); [apply neutral_pure | apply neutral_throw].
Qed.

Create HintDb conn.
#[local] Hint Resolve neutral_pure neutral_return neutral_throw neutral_client_query
  neutral_first_row neutral_console_error neutral_console_log neutral_revalidatePath
  neutral_redirect neutral_today_text neutral_parse neutral_client_query_promise
  neutral_await : conn.
#[local] Hint Extern 2 (neutral (bind _ _)) => apply neutral_bind; [|intro] : conn.
#[local] Hint Extern 1 (neutral (unresolvable _)) => apply neutral_throw : conn.

Lemma neutral_balanced {R A} (m : Stmt R A) : neutral m -> balanced m.
Proof.
  intros H w. destruct (H w) as [H1 H2].
  rewrite H2, (opened_attempts _ H1), H1. cbn. auto.
Qed.

Lemma scoped_balanced {R A} (body : Client -> Stmt R A) (handler : js_error -> Stmt R A) :
  (forall c, neutral (body c)) -> (forall e, neutral (handler e)) ->
  balanced (scoped body handler).
Proof.
  intros Hb Hh w. rewrite scoped_run.
  destruct (next_fault w) as [msg|]; [cbn; auto|].
  cbv zeta. destruct (Hb (clients w) (connected w)) as [B1 B2].
  pose proof (opened_attempts _ B1) as B3.
  destruct (body (clients w) (connected w)) as [[a|r|e] w1 e1]; cbn [result world events] in *.
  - cbn. rewrite closed_app, opened_app, connect_attempts_app, B1, B2, B3. cbn. auto.
  - cbn. rewrite closed_app, opened_app, connect_attempts_app, B1, B2, B3. cbn. auto.
  - destruct (Hh e w1) as [H1 H2]. pose proof (opened_attempts _ H1) as H3.
    cbn. rewrite !closed_app, !opened_app, !connect_attempts_app, B1, B2, B3, H1, H2, H3.
    cbn. auto.
Qed.

Lemma neutral_then_balanced {R A B} (m : Stmt R A) (k : A -> Stmt R B) :
  neutral m -> (forall a, balanced (k a)) -> balanced (bind m k).
Proof.
  intros Hm Hk w. unfold bind. destruct (Hm w) as (H1 & H2).
  pose proof (opened_attempts _ H1) as H3.
  destruct (m w) as [[a|r|e] w1 e1]; cbn [result world events] in *.
  - destruct (Hk a w1) as (K1 & K2 & K3).
    rewrite closed_app, opened_app, connect_attempts_app, H1, H2, H3. cbn. auto.
  - rewrite H1, H2, H3. cbn. auto.
  - rewrite H1, H2, H3. cbn. auto.
Qed.

(** The actions stop where they call the binding they import. *)
Lemma connectClient_undefined {R A} (k : Client -> Stmt R A) (w : World) :
  bind Actions.connectClient k w =
  mkOutcome (Throw (TypeError "connectClient is not a function")) w [].
Proof. reflexivity. Qed.

Lemma neutral_import {R A} (k : Client -> Stmt R A) :
  neutral (bind Actions.connectClient k).
Proof. intros w. rewrite connectClient_undefined. cbn. auto. Qed.

Ltac read_balanced :=
  cbv zeta; fold_scoped; apply scoped_balanced; intros; auto 12 with conn.

Lemma fetchRevenue_balanced : balanced Data.fetchRevenue.
Proof. unfold Data.fetchRevenue. read_balanced. Qed.

Lemma fetchLatestInvoices_balanced f : balanced (Data.fetchLatestInvoices f).
Proof. unfold Data.fetchLatestInvoices. read_balanced. Qed.

Lemma fetchCardData_balanced f : balanced (Data.fetchCardData f).
Proof.
  unfold Data.fetchCardData, Promise_all3. cbv zeta. fold_scoped.
  apply scoped_balanced; intros; [|auto with conn].
  do 3 (apply neutral_bind; [auto with conn|intro]).
  apply neutral_bind; [auto 12 with conn|intros [[r1 r2] r3]].
  auto 12 with conn.
Qed.

Lemma fetchFilteredInvoices_balanced q p : balanced (Data.fetchFilteredInvoices q p).
Proof. unfold Data.fetchFilteredInvoices. read_balanced. Qed.

Lemma fetchInvoicesPages_balanced q : balanced (Data.fetchInvoicesPages q).
Proof. unfold Data.fetchInvoicesPages. read_balanced. Qed.

Lemma fetchInvoiceById_balanced id : balanced (Data.fetchInvoiceById id).
Proof. unfold Data.fetchInvoiceById. read_balanced. Qed.

Lemma fetchCustomers_balanced : balanced Data.fetchCustomers.
Proof. unfold Data.fetchCustomers. read_balanced. Qed.

Lemma fetchFilteredCustomers_balanced f q : balanced (Data.fetchFilteredCustomers f q).
Proof. unfold Data.fetchFilteredCustomers. read_balanced. Qed.

Lemma getUser_balanced email : balanced (Data.getUser email).
Proof. unfold Data.getUser. read_balanced. Qed.

Lemma createInvoice_balanced fd : balanced (Actions.createInvoice fd).
Proof.
  unfold Actions.createInvoice. cbv zeta.
  apply neutral_then_balanced; [auto with conn|]. intros _.
  destruct (Actions.CreateInvoice_safeParse (Actions.raw_of fd)).
  - apply neutral_then_balanced; [auto with conn|]. intros amount.
    apply neutral_then_balanced; [auto with conn|]. intros date.
    apply neutral_balanced, neutral_import.
  - apply neutral_balanced. auto with conn.
Qed.

Lemma updateInvoice_balanced id fd : balanced (Actions.updateInvoice id fd).
Proof.
  unfold Actions.updateInvoice. cbv zeta.
  apply neutral_then_balanced; [auto with conn|]. intros fields.
  apply neutral_balanced, neutral_import.
Qed.

Lemma deleteInvoice_balanced id : balanced (Actions.deleteInvoice id).
Proof.
  unfold Actions.deleteInvoice.
  apply neutral_balanced, neutral_import.
Qed.

Lemma createInvoice_invalid (formData : Form.FormData) (issues : list Zod.ZodIssue)
    (w : World) :
  Zod.safeParse (Actions.raw_of formData) = Zod.Failure issues ->
  Actions.createInvoice formData w =
  mkOutcome
    (Return (Actions.mkState (Some (Zod.fieldErrors issues))
                             (Some "Missing Fields. Failed to Create Invoice")))
    w [ConsoleLog "validatedFields"].
Proof.
  intros H. unfold Actions.createInvoice, Actions.CreateInvoice_safeParse.
  rewrite H. reflexivity.
Qed.

(** C4: whatever the fault plan, an operation ends exactly the clients
    whose [connect] resolved, each once, and it connects at most one; when
    [createInvoice] stops at validation it makes no connection attempt and
    ends no client. *)
Theorem connection_closed_on_every_path (formatCurrency : Z -> string)
    (op : Operation) (w : World) :
  let evs := (exec formatCurrency op w).2 in
  closed evs = opened evs /\
  (length (connect_attempts evs) <= 1)%nat /\
  (length (opened evs) <= 1)%nat /\
  (forall formData issues,
     op = CreateInvoice formData ->
     Zod.safeParse (Actions.raw_of formData) = Zod.Failure issues ->
     connect_attempts evs = [] /\ closed evs = []).
Proof.
  cbv zeta.
  assert (Hb : let evs := (exec formatCurrency op w).2 in
               closed evs = opened evs /\
               (length (connect_attempts evs) <= 1)%nat /\
               (length (opened evs) <= 1)%nat).
  { destruct op; cbn [exec observe snd].
    - apply fetchRevenue_balanced.
    - apply fetchLatestInvoices_balanced.
    - apply fetchCardData_balanced.
    - apply fetchFilteredInvoices_balanced.
    - apply fetchInvoicesPages_balanced.
    - apply fetchInvoiceById_balanced.
    - apply fetchCustomers_balanced.
    - apply fetchFilteredCustomers_balanced.
    - apply getUser_balanced.
    - apply createInvoice_balanced.
    - apply updateInvoice_balanced.
    - apply deleteInvoice_balanced. }
  destruct Hb as (H1 & H2 & H3). repeat split; try assumption.
  - subst op. cbn [exec observe snd]. now rewrite (createInvoice_invalid _ _ _ H0).
  - subst op. cbn [exec observe snd]. now rewrite (createInvoice_invalid _ _ _ H0).
Qed.

(** ** Validation *)

Lemma SFcompare_refl (x : spec_float) :
  x <> S754_nan -> SFcompare x x = Some Eq.
Proof.
  destruct x as [s|s| |s m e]; cbn; try congruence.
  - destruct s; reflexivity.
  - intros _. rewrite Z.compare_refl.
    change (Pos.compare_cont Eq m m) with (Pos.compare m m).
    rewrite Pos.compare_refl. destruct s; reflexivity.
Qed.

(** A number that compares [<=] to another one is not NaN. *)
Lemma leb_not_nan (x y : float) :
  PrimFloat.leb x y = true -> is_nan x = false.
Proof.
  intros H. unfold is_nan. rewrite FloatAxioms.eqb_spec. rewrite FloatAxioms.leb_spec in H.
  unfold SFeqb. rewrite SFcompare_refl; [reflexivity|].
  intros E. rewrite E in H. discriminate.
Qed.

Lemma parse_amount_not_positive (v : option Form.FormDataEntryValue) :
  PrimFloat.leb (Zod.coerce_number v) 0 = true ->
  Zod.parse_amount v =
  inl [Zod.mkIssue Zod.too_small "amount" "Please enter an amount greater than $0."].
Proof.
  intros H. unfold Zod.parse_amount. cbv zeta.
  now rewrite (leb_not_nan _ _ H), H.
Qed.

Lemma parse_customerId_paths v :
  Forall (fun i => Zod.issue_path i = "customerId") (Zod.issues_of (Zod.parse_customerId v)).
Proof. destruct v as [[s|f]|]; cbn; auto. Qed.

Lemma parse_status_paths v :
  Forall (fun i => Zod.issue_path i = "status") (Zod.issues_of (Zod.parse_status v)).
Proof.
  destruct v as [[s|f]|]; cbn; auto.
  repeat case_bool_decide; cbn; auto.
Qed.

(** [fieldErrors] groups the messages by key, in the order of the issues. *)
Lemma fieldErrors_fold (issues : list Zod.ZodIssue) (m : gmap string (list string))
    (k : string) :
  foldl (fun m i =>
           <[Zod.issue_path i :=
               default [] (m !! Zod.issue_path i) ++ [Zod.issue_message i]]> m)
        m issues !! k =
  match map Zod.issue_message (filter (fun i => Zod.issue_path i = k) issues) with
  | [] => m !! k
  | l => Some (default [] (m !! k) ++ l)
  end.
Proof.
  revert m. induction issues as [|i issues IH]; intros m; [reflexivity|].
  cbn [foldl]. rewrite IH. rewrite filter_cons.
  destruct (decide (Zod.issue_path i = k)) as [<-|Hne].
  - rewrite lookup_insert_eq.
    cbn [map]. destruct (map Zod.issue_message _) as [|s l].
    + reflexivity.
    + cbn. now rewrite <- app_assoc.
  - now rewrite lookup_insert_ne.
Qed.

Lemma fieldErrors_lookup (issues : list Zod.ZodIssue) (k : string) :
  Zod.fieldErrors issues !! k =
  match map Zod.issue_message (filter (fun i => Zod.issue_path i = k) issues) with
  | [] => None
  | l => Some l
  end.
Proof. unfold Zod.fieldErrors. rewrite fieldErrors_fold, lookup_empty. reflexivity. Qed.

Lemma filter_other_path (k k' : string) (l : list Zod.ZodIssue) :
  k <> k' ->
  Forall (fun i => Zod.issue_path i = k) l ->
  filter (fun i => Zod.issue_path i = k') l = [].
Proof.
  intros Hne H. induction H as [|i l Hi _ IH]; [reflexivity|].
  rewrite filter_cons, IH. destruct (decide _); congruence.
Qed.

Lemma safeParse_amount_not_positive (raw : Zod.RawInvoice) :
  PrimFloat.leb (Zod.coerce_number (Zod.raw_amount raw)) 0 = true ->
  exists issues,
    Zod.safeParse raw = Zod.Failure issues /\
    Zod.fieldErrors issues !! "amount" = Some ["Please enter an amount greater than $0."].
Proof.
  intros H. unfold Zod.safeParse. rewrite (parse_amount_not_positive _ H).
  pose proof (parse_customerId_paths (Zod.raw_customerId raw)) as Hc.
  pose proof (parse_status_paths (Zod.raw_status raw)) as Hs.
  exists (Zod.issues_of (Zod.parse_customerId (Zod.raw_customerId raw)) ++
          [Zod.mkIssue Zod.too_small "amount" "Please enter an amount greater than $0."] ++
          Zod.issues_of (Zod.parse_status (Zod.raw_status raw))).
  split.
  - destruct (Zod.parse_customerId _), (Zod.parse_status _); reflexivity.
  - rewrite fieldErrors_lookup, !filter_app.
    rewrite (filter_other_path "customerId" "amount" _ ltac:(done) Hc).
    rewrite (filter_other_path "status" "amount" _ ltac:(done) Hs).
    reflexivity.
Qed.

(** C5: when the [amount] entry coerces to a number that is zero or
    negative, [createInvoice] returns a payload whose field errors have the
    key "amount"; it has done nothing but log: no connection attempt, no
    statement, the world as it was. *)
Theorem createInvoice_rejects_non_positive_amount (formData : Form.FormData) (w : World) :
  PrimFloat.leb (Zod.coerce_number (Form.get formData "amount")) 0 = true ->
  exists payload fieldErrors,
    Actions.createInvoice formData w =
      mkOutcome (Return payload) w [ConsoleLog "validatedFields"] /\
    Actions.errors payload = Some fieldErrors /\
    fieldErrors !! "amount" = Some ["Please enter an amount greater than $0."] /\
    connect_attempts (events (Actions.createInvoice formData w)) = [] /\
    statements (events (Actions.createInvoice formData w)) = [] /\
    database (world (Actions.createInvoice formData w)) = database w.
Proof.
  intros H.
  destruct (safeParse_amount_not_positive (Actions.raw_of formData) H) as (issues & Hp & Hf).
  rewrite (createInvoice_invalid _ _ _ Hp).
  eexists _, _. repeat split; try reflexivity. exact Hf.
Qed.

Lemma createInvoice_rejects_non_positive_amount_witness :
  exists payload fieldErrors,
    Actions.createInvoice (Sample.form "c1" "-12.50" "paid") Sample.world =
      mkOutcome (Return payload) Sample.world [ConsoleLog "validatedFields"] /\
    Actions.errors payload = Some fieldErrors /\
    fieldErrors !! "amount" = Some ["Please enter an amount greater than $0."].
Proof.
  destruct (createInvoice_rejects_non_positive_amount
              (Sample.form "c1" "-12.50" "paid") Sample.world)
    as (payload & fe & H1 & H2 & H3 & _).
  - vm_compute. reflexivity.
  - exists payload, fe. auto.
Defined.

Lemma connection_closed_on_every_path_witness :
  Zod.safeParse (Actions.raw_of (Sample.form "c1" "0" "paid")) =
    Zod.Failure [Zod.mkIssue Zod.too_small "amount" "Please enter an amount greater than $0."] /\
  connect_attempts
    (exec Sample.formatCurrency (CreateInvoice (Sample.form "c1" "0" "paid")) Sample.world).2 = [] /\
  closed
    (exec Sample.formatCurrency (CreateInvoice (Sample.form "c1" "0" "paid")) Sample.world).2 = [].
Proof.
  assert (H : Zod.safeParse (Actions.raw_of (Sample.form "c1" "0" "paid")) =
              Zod.Failure [Zod.mkIssue Zod.too_small "amount"
                             "Please enter an amount greater than $0."])
    by (vm_compute; reflexivity).
  split; [exact H|].
  destruct (connection_closed_on_every_path Sample.formatCurrency
              (CreateInvoice (Sample.form "c1" "0" "paid")) Sample.world)
    as (_ & _ & _ & Hv).
  exact (Hv _ _ eq_refl H).
Defined.

(** ** Failures of the read operations *)

Create HintDb ops.
#[local] Hint Unfold Data.fetchRevenue Data.fetchLatestInvoices Data.fetchCardData
  Data.fetchFilteredInvoices Data.fetchInvoicesPages Data.fetchInvoiceById
  Data.fetchCustomers Data.fetchFilteredCustomers Data.getUser : ops.

Ltac expose_read op :=
  destruct op; try discriminate; cbn [exec observe failure_message log_label];
  autounfold with ops; cbv zeta; fold_scoped; rewrite scoped_run.

Lemma read_connect_failure (formatCurrency : Z -> string) (op : Operation) (w : World)
    (msg : string) :
  is_read op = true ->
  next_fault w = Some msg ->
  exec formatCurrency op w =
  (Rejected (DriverError msg), connected w, [ConnectFailed (clients w) (DriverError msg)]).
Proof.
  intros Hr Hf. expose_read op; rewrite Hf; reflexivity.
Qed.

Lemma read_rejection (formatCurrency : Z -> string) (op : Operation) (w : World) e :
  is_read op = true ->
  next_fault w = None ->
  (exec formatCurrency op w).1.1 = Rejected e ->
  e = Error_ (failure_message op) None /\
  exists cause, In (ConsoleError (log_label op) cause) (exec formatCurrency op w).2.
Proof.
  intros Hr Hf.
  remember (exec formatCurrency op w) as o eqn:Ho. revert Ho.
  expose_read op; rewrite Hf; cbv beta zeta;
    match goal with
    | |- context [match result (?b ?c ?w1) with _ => _ end] =>
        destruct (b c w1) as [[a|r|e0] w2 e2]
    end; cbn [result world events fst snd exit_of bind console_error emit throw];
    intros -> H; cbn [fst snd] in *; try discriminate; injection H as <-;
    (split; [reflexivity|]); exists e0;
    apply in_cons, in_or_app; right; left; reflexivity.
Qed.

Lemma read_statement_failure (formatCurrency : Z -> string) (op : Operation) (w : World)
    (s : Statement) (msg : string) :
  op_statements op = [s] ->
  next_fault w = None ->
  next_fault (connected w) = Some msg ->
  exec formatCurrency op w =
  (Rejected (Error_ (failure_message op) None), served w,
   [Connected (clients w); QueryFailed (clients w) s (DriverError msg);
    ConsoleError (log_label op) (DriverError msg); Ended (clients w)]).
Proof.
  intros Hs Hf Hq.
  destruct op; cbn [op_statements] in Hs; try discriminate Hs; injection Hs as <-;
    cbn [exec observe failure_message log_label];
    autounfold with ops; cbv zeta; fold_scoped; rewrite scoped_run, Hf; cbv beta zeta;
    (erewrite bind_Throw by (apply client_query_fault; exact Hq));
    reflexivity.
Qed.

Lemma read_statement_refused (formatCurrency : Z -> string) (op : Operation) (w : World)
    (s : Statement) (msg : string) :
  op_statements op = [s] ->
  calls_succeed 2 w = true ->
  execute s (database w) = inl msg ->
  exec formatCurrency op w =
  (Rejected (Error_ (failure_message op) None), served w,
   [Connected (clients w); QueryFailed (clients w) s (DriverError msg);
    ConsoleError (log_label op) (DriverError msg); Ended (clients w)]).
Proof.
  intros Hs Hok He. apply calls_succeed_2 in Hok as [Hf Hq].
  destruct op; cbn [op_statements] in Hs; try discriminate Hs; injection Hs as <-;
    cbn [exec observe failure_message log_label];
    autounfold with ops; cbv zeta; fold_scoped; rewrite scoped_run, Hf; cbv beta zeta;
    (erewrite bind_Throw by (apply client_query_rejected; [exact Hq|exact He]));
    reflexivity.
Qed.

Lemma fetchCardData_statement_failure (formatCurrency : Z -> string) (w : World)
    (k : nat) (msg : string) :
  (k < 3)%nat ->
  calls_succeed (S k) w = true ->
  faults w !! S k = Some (Some msg) ->
  translated FetchCardData (clients w) k msg (database w)
    (exec formatCurrency FetchCardData w).
Proof.
  intros Hk Hok Hm. destruct w as [d fs cl td].
  unfold calls_succeed in Hok. cbn [faults clients database] in *.
  unfold translated.
  destruct k as [|[|[|k]]]; [| | |lia];
    destruct fs as [|[m0|] [|[m1|] [|[m2|] [|[m3|] fs]]]]; cbn in Hok, Hm;
    try discriminate; injection Hm as ->;
    (split; [vm_compute; reflexivity|]);
    (split; [eexists; split; [reflexivity|vm_compute; auto]|]);
    repeat split.
Qed.

Lemma plan_first_statement (w : World) (msg : string) :
  calls_succeed 1 w = true ->
  faults w !! 1%nat = Some (Some msg) ->
  next_fault w = None /\ next_fault (connected w) = Some msg.
Proof.
  destruct w as [d fs cl td]. unfold calls_succeed, next_fault, connected.
  cbn [faults]. destruct fs as [|[m0|] [|f1 fs]]; cbn; intros Hok Hm;
    try discriminate. injection Hm as ->. auto.
Qed.

Lemma read_failure_at (formatCurrency : Z -> string) (op : Operation) (w : World)
    (k : nat) (msg : string) :
  is_read op = true ->
  (k < length (op_statements op))%nat ->
  calls_succeed (S k) w = true ->
  faults w !! S k = Some (Some msg) ->
  translated op (clients w) k msg (database w) (exec formatCurrency op w).
Proof.
  intros Hr Hk Hok Hm.
  assert (Hc : op = FetchCardData \/ exists s, op_statements op = [s]).
  { destruct op; try discriminate Hr;
      first [left; reflexivity | right; eexists; reflexivity]. }
  destruct Hc as [->|(s & Hs)].
  { now apply fetchCardData_statement_failure. }
  rewrite Hs in Hk. cbn in Hk.
  assert (k = 0%nat) as -> by lia.
  destruct (plan_first_statement w msg Hok Hm) as [Hf Hq].
  rewrite (read_statement_failure formatCurrency op w s msg Hs Hf Hq).
  unfold translated. cbn [fst snd]. rewrite Hs.
  split; [reflexivity|]. split; [exists s; split; [reflexivity|right; left; reflexivity]|].
  repeat split.
Qed.

Lemma failure_message_shape (op : Operation) :
  is_read op = true ->
  failure_message op = "Failed to fetch " +:+ resource op +:+ ".".
Proof. destruct op; intros H; try discriminate; reflexivity. Qed.

(** C2, as the code has it: a failing statement of a read operation (the
    only one, or any of the three of [fetchCardData], whether the driver
    rejects it or the server refuses it) is caught, logged once with
    [console.error], and replaced by a new [Error] whose message is
    "Failed to fetch <resource>." and which carries no cause; the client
    is ended and the store is as it was.  A failing [connect] is outside
    the [try]: it reaches the caller as the driver raised it, and nothing
    is logged. *)
Theorem read_failures_translated (formatCurrency : Z -> string) (op : Operation)
    (w : World) :
  is_read op = true ->
  failure_message op = "Failed to fetch " +:+ resource op +:+ "." /\
  (forall k msg,
     (k < length (op_statements op))%nat ->
     calls_succeed (S k) w = true ->
     faults w !! S k = Some (Some msg) ->
     let o := exec formatCurrency op w in
     o.1.1 = Rejected (Error_ (failure_message op) None) /\
     (exists s, op_statements op !! k = Some s /\
                In (QueryFailed (clients w) s (DriverError msg)) o.2) /\
     List.filter is_log o.2 = [ConsoleError (log_label op) (DriverError msg)] /\
     opened o.2 = [clients w] /\ closed o.2 = [clients w] /\
     database o.1.2 = database w) /\
  (forall s msg,
     op_statements op = [s] ->
     (next_fault w = None /\ next_fault (connected w) = Some msg) \/
     (calls_succeed 2 w = true /\ execute s (database w) = inl msg) ->
     exec formatCurrency op w =
     (Rejected (Error_ (failure_message op) None), served w,
      [Connected (clients w); QueryFailed (clients w) s (DriverError msg);
       ConsoleError (log_label op) (DriverError msg); Ended (clients w)])) /\
  (forall e, next_fault w = None -> (exec formatCurrency op w).1.1 = Rejected e ->
     e = Error_ (failure_message op) None /\
     exists cause, In (ConsoleError (log_label op) cause) (exec formatCurrency op w).2) /\
  (forall msg, next_fault w = Some msg ->
     exec formatCurrency op w =
     (Rejected (DriverError msg), connected w,
      [ConnectFailed (clients w) (DriverError msg)])).
Proof.
  intros Hr. split; [now apply failure_message_shape|].
  split; [intros k msg Hk Hok Hm; now apply read_failure_at|].
  split.
  { intros s msg Hs [[Hf Hq]|[Hok He]].
    - now apply read_statement_failure.
    - now apply read_statement_refused. }
  split; [intros e; now apply read_rejection|].
  intros msg. now apply read_connect_failure.
Qed.

Lemma read_failures_translated_witness :
  (exec Sample.formatCurrency (FetchInvoicesPages "alice") Sample.failing_statement).1.1 =
    Rejected (Error_ "Failed to fetch total number of invoices." None) /\
  (exec Sample.formatCurrency FetchCardData Sample.failing_third_statement).1.1 =
    Rejected (Error_ "Failed to fetch card data." None) /\
  List.filter is_log
    (exec Sample.formatCurrency FetchCardData Sample.failing_third_statement).2 =
    [ConsoleError "Database Error:"
       (DriverError "canceling statement due to statement timeout")] /\
  (exec Sample.formatCurrency (FetchFilteredInvoices "alice" 0) Sample.world).1.1 =
    Rejected (Error_ "Failed to fetch invoices." None) /\
  exec Sample.formatCurrency (FetchInvoicesPages "alice") Sample.offline =
    (Rejected (DriverError "connect ECONNREFUSED"), connected Sample.offline,
     [ConnectFailed 0%nat (DriverError "connect ECONNREFUSED")]).
Proof.
  split; [|split; [|split; [|split]]].
  - destruct (read_failures_translated Sample.formatCurrency (FetchInvoicesPages "alice")
                Sample.failing_statement eq_refl) as (_ & H & _).
    destruct (H 0%nat _ ltac:(cbn; lia) eq_refl eq_refl) as (-> & _). reflexivity.
  - destruct (read_failures_translated Sample.formatCurrency FetchCardData
                Sample.failing_third_statement eq_refl) as (_ & H & _).
    destruct (H 2%nat _ ltac:(cbn; lia) eq_refl eq_refl) as (-> & _). reflexivity.
  - destruct (read_failures_translated Sample.formatCurrency FetchCardData
                Sample.failing_third_statement eq_refl) as (_ & H & _).
    destruct (H 2%nat _ ltac:(cbn; lia) eq_refl eq_refl) as (_ & _ & -> & _). reflexivity.
  - destruct (read_failures_translated Sample.formatCurrency
                (FetchFilteredInvoices "alice" 0) Sample.world eq_refl) as (_ & _ & H & _).
    rewrite (H _ "OFFSET must not be negative" eq_refl); [reflexivity|].
    right. split; reflexivity.
  - destruct (read_failures_translated Sample.formatCurrency (FetchInvoicesPages "alice")
                Sample.offline eq_refl) as (_ & _ & _ & _ & H).
    exact (H _ eq_refl).
Defined.

(** C2 as stated fails for a connection failure: with the server out of
    reach, [fetchRevenue] rejects with the driver's own error, not with
    "Failed to fetch revenue data.", and nothing is logged. *)
Lemma connect_failure_not_translated :
  exec Sample.formatCurrency FetchRevenue Sample.offline =
    (Rejected (DriverError "connect ECONNREFUSED"), connected Sample.offline,
     [ConnectFailed 0%nat (DriverError "connect ECONNREFUSED")]) /\
  (exec Sample.formatCurrency FetchRevenue Sample.offline).1.1 <>
    Rejected (Error_ (failure_message FetchRevenue) None) /\
  List.filter is_log (exec Sample.formatCurrency FetchRevenue Sample.offline).2 = [].
Proof.
  assert (H : exec Sample.formatCurrency FetchRevenue Sample.offline =
              (Rejected (DriverError "connect ECONNREFUSED"), connected Sample.offline,
               [ConnectFailed 0%nat (DriverError "connect ECONNREFUSED")])).
  { cbn [exec observe]. unfold Data.fetchRevenue. fold_scoped.
    rewrite scoped_run. reflexivity. }
  rewrite H. repeat split. discriminate.
Qed.

(** ** The schema *)

Lemma Prim2SF_zero : Prim2SF 0 = S754_zero false.
Proof. reflexivity. Qed.

(** For a double, "not NaN and not [<= 0]" is "[> 0]". *)
Lemma positive_iff (x : float) :
  PrimFloat.ltb 0 x = true <-> is_nan x = false /\ PrimFloat.leb x 0 = false.
Proof.
  unfold is_nan.
  rewrite FloatAxioms.ltb_spec, FloatAxioms.leb_spec, FloatAxioms.eqb_spec, Prim2SF_zero.
  unfold SFltb, SFleb, SFeqb.
  destruct (Prim2SF x) as [s|s| |s m e] eqn:E.
  - cbn. intuition congruence.
  - destruct s; cbn; intuition congruence.
  - cbn. intuition congruence.
  - rewrite SFcompare_refl by discriminate. destruct s; cbn; intuition congruence.
Qed.

Lemma parse_amount_positive (v : option Form.FormDataEntryValue) :
  greater_than_zero v = true -> Zod.parse_amount v = inr (Zod.coerce_number v).
Proof.
  unfold greater_than_zero. intros H. apply positive_iff in H as [H1 H2].
  unfold Zod.parse_amount. cbv zeta. now rewrite H1, H2.
Qed.

Lemma parse_amount_rejected (v : option Form.FormDataEntryValue) :
  greater_than_zero v = false -> exists i, Zod.parse_amount v = inl [i].
Proof.
  unfold greater_than_zero. intros H. unfold Zod.parse_amount. cbv zeta.
  destruct (is_nan (Zod.coerce_number v)) eqn:H1; [eauto|].
  destruct (PrimFloat.leb (Zod.coerce_number v) 0) eqn:H2; [eauto|].
  assert (PrimFloat.ltb 0 (Zod.coerce_number v) = true) by (apply positive_iff; auto).
  congruence.
Qed.

Lemma parse_customerId_spec (v : option Form.FormDataEntryValue) :
  if is_string v
  then exists s, v = Some (Form.FString s) /\ Zod.parse_customerId v = inr s
  else exists i, Zod.parse_customerId v = inl [i].
Proof. destruct v as [[s|f]|]; cbn; eauto. Qed.

Lemma parse_status_spec (v : option Form.FormDataEntryValue) :
  if is_status v
  then exists st, v = Some (Form.FString (Zod.status_text st)) /\ Zod.parse_status v = inr st
  else exists i, Zod.parse_status v = inl [i].
Proof.
  destruct v as [[s|f]|]; cbn; eauto.
  repeat case_bool_decide; subst; cbn; try discriminate;
    first [ now exists Zod.pending | now exists Zod.paid | eauto ].
Qed.

(** The schema accepts exactly the forms with the three conditions, and
    hands on the coerced amount. *)
Lemma safeParse_spec (formData : Form.FormData) :
  if passes_validation formData
  then exists customerId status,
         Zod.safeParse (Actions.raw_of formData) =
         Zod.Success (Zod.mkFields customerId
                        (Zod.coerce_number (Form.get formData "amount")) status) /\
         Form.get formData "customerId" = Some (Form.FString customerId) /\
         Form.get formData "status" = Some (Form.FString (Zod.status_text status))
  else exists issues, Zod.safeParse (Actions.raw_of formData) = Zod.Failure issues.
Proof.
  unfold passes_validation, Zod.safeParse, Actions.raw_of.
  cbn [Zod.raw_customerId Zod.raw_amount Zod.raw_status].
  pose proof (parse_customerId_spec (Form.get formData "customerId")) as Hc.
  pose proof (parse_status_spec (Form.get formData "status")) as Hs.
  destruct (is_string _).
  - destruct Hc as (c & Hc1 & ->).
    destruct (greater_than_zero _) eqn:Ha.
    + rewrite (parse_amount_positive _ Ha).
      destruct (is_status _).
      * destruct Hs as (st & Hs1 & ->). cbn. eauto.
      * destruct Hs as (i & ->). cbn. eauto.
    + destruct (parse_amount_rejected _ Ha) as (i & ->). cbn.
      destruct (Zod.parse_status _); eauto.
  - destruct Hc as (i & ->). cbn.
    destruct (Zod.parse_amount _), (Zod.parse_status _); eauto.
Qed.

(** ** createInvoice *)

Lemma createInvoice_valid (formData : Form.FormData) (w : World) :
  passes_validation formData = true ->
  Actions.createInvoice formData w =
  mkOutcome (Throw (ReferenceError "amount")) w [ConsoleLog "validatedFields"].
Proof.
  intros H. pose proof (safeParse_spec formData) as Hs. rewrite H in Hs.
  destruct Hs as (c & st & Hs & _).
  unfold Actions.createInvoice, Actions.CreateInvoice_safeParse. rewrite Hs.
  reflexivity.
Qed.

(** C1 fails on the code: the payload of the specification (an existing
    customer, amount "50.00", status "paid") passes validation, with amount
    50 and so 5000 cents to insert, and [createInvoice] then throws
    [ReferenceError: amount is not defined]: no connection, no INSERT, no
    revalidation, no redirect, the store as it was. *)
Theorem createInvoice_valid_payload_throws :
  passes_validation (Sample.form "c1" "50.00" "paid") = true /\
  JSNum.to_Z_exact (cents_of (Sample.form "c1" "50.00" "paid")) = Some 5000 /\
  observe (Actions.createInvoice (Sample.form "c1" "50.00" "paid") Sample.world) =
    (Rejected (ReferenceError "amount"), Sample.world, [ConsoleLog "validatedFields"]).
Proof.
  split; [vm_compute; reflexivity|]. split; [vm_compute; reflexivity|].
  rewrite createInvoice_valid by (vm_compute; reflexivity). reflexivity.
Qed.

(** ** updateInvoice *)

Lemma updateInvoice_invalid (id : string) (formData : Form.FormData) (w : World) :
  passes_validation formData = false ->
  exists issues,
    Actions.updateInvoice id formData w = mkOutcome (Throw (ZodError issues)) w [].
Proof.
  intros H. pose proof (safeParse_spec formData) as Hs. rewrite H in Hs.
  destruct Hs as (issues & Hs). exists issues.
  unfold Actions.updateInvoice, Actions.UpdateInvoice_parse, bind. rewrite Hs.
  reflexivity.
Qed.

Lemma updateInvoice_valid (id : string) (formData : Form.FormData) (w : World) :
  passes_validation formData = true ->
  Actions.updateInvoice id formData w =
  mkOutcome (Throw (TypeError "connectClient is not a function")) w [].
Proof.
  intros H. pose proof (safeParse_spec formData) as Hs. rewrite H in Hs.
  destruct Hs as (c & st & Hs & _).
  unfold Actions.updateInvoice, Actions.UpdateInvoice_parse. rewrite Hs.
  rewrite bind_pure. cbv zeta. apply connectClient_undefined.
Qed.

(** C8 fails on the code for the forms that pass validation.  A form that
    fails one of the three conditions of the schema makes [updateInvoice]
    throw the [ZodError], as the claim says.  A form that passes is parsed,
    and the call then stops at [connectClient()]: the binding imported
    from [data.ts] is [undefined], a [TypeError] is thrown, and there is
    no connection, no UPDATE, no revalidation and no redirect. *)
Theorem updateInvoice_valid_form_throws (id : string) (formData : Form.FormData)
    (w : World) :
  (passes_validation formData = false ->
   exists issues,
     Actions.updateInvoice id formData w = mkOutcome (Throw (ZodError issues)) w []) /\
  (passes_validation formData = true ->
   exists msg,
     observe (Actions.updateInvoice id formData w) = (Rejected (TypeError msg), w, [])).
Proof.
  split.
  - apply updateInvoice_invalid.
  - intros Hv. rewrite updateInvoice_valid by exact Hv. eexists. reflexivity.
Qed.

Lemma updateInvoice_valid_form_throws_witness :
  (exists issues,
     Actions.updateInvoice "i1" (Sample.form "c1" "abc" "paid") Sample.world =
     mkOutcome (Throw (ZodError issues)) Sample.world []) /\
  JSNum.to_Z_exact (cents_of (Sample.form "c2" "50.00" "pending")) = Some 5000 /\
  exists msg,
    observe (Actions.updateInvoice "i1" (Sample.form "c2" "50.00" "pending")
               Sample.world) =
    (Rejected (TypeError msg), Sample.world, []).
Proof.
  split; [|split].
  - destruct (updateInvoice_valid_form_throws "i1" (Sample.form "c1" "abc" "paid")
                Sample.world) as [H _].
    apply H. vm_compute. reflexivity.
  - vm_compute. reflexivity.
  - destruct (updateInvoice_valid_form_throws "i1" (Sample.form "c2" "50.00" "pending")
                Sample.world) as [_ H].
    apply H. vm_compute. reflexivity.
Defined.

(** ** fetchInvoiceById *)

Lemma fetchInvoiceById_run (id : string) (w : World) :
  calls_succeed 2 w = true ->
  Data.fetchInvoiceById id w =
  mkOutcome
    (Return (first (map in_dollars
                      (map form_columns
                         (filter (fun i => inv_id i = id) (invoices (database w)))))))
    (served w)
    [Connected (clients w); Queried (clients w) (SelectInvoiceById id); Ended (clients w)].
Proof.
  intros Hok. apply calls_succeed_2 in Hok as [H1 H2].
  unfold Data.fetchInvoiceById. fold_scoped.
  rewrite scoped_run, H1. cbv zeta.
  erewrite bind_Normal by (apply client_query_ok; [exact H2 | reflexivity]).
  reflexivity.
Qed.

Lemma filter_no_match (id : string) (l : list InvoiceRow) :
  (forall i, In i l -> inv_id i <> id) ->
  filter (fun i => inv_id i = id) l = [].
Proof.
  induction l as [|i l IH]; intros H; [reflexivity|].
  rewrite filter_cons. destruct (decide (inv_id i = id)) as [E|_].
  - exfalso. exact (H i (or_introl eq_refl) E).
  - apply IH. intros j Hj. apply H. now right.
Qed.

(** C9: when no invoice has the id [id], and the connection is made and
    the statement runs, [fetchInvoiceById id] returns [undefined]: element
    0 of the empty list of mapped rows.  It does not throw, it logs
    nothing, and it ends its client. *)
Theorem fetchInvoiceById_unknown_id (id : string) (w : World) :
  calls_succeed 2 w = true ->
  (forall i, In i (invoices (database w)) -> inv_id i <> id) ->
  Data.fetchInvoiceById id w =
  mkOutcome (Return None) (served w)
    [Connected (clients w); Queried (clients w) (SelectInvoiceById id); Ended (clients w)].
Proof.
  intros Hok Hno. rewrite (fetchInvoiceById_run id w Hok).
  now rewrite (filter_no_match id _ Hno).
Qed.

Lemma fetchInvoiceById_unknown_id_witness :
  result (Data.fetchInvoiceById "no-such-invoice" Sample.world) = Return None.
Proof.
  rewrite (fetchInvoiceById_unknown_id "no-such-invoice" Sample.world eq_refl).
  - reflexivity.
  - cbn. intros i H. repeat (destruct H as [<-|H]; [discriminate|]). destruct H.
Defined.

(** ** Cents written, dollars read *)


(** ** The shared client of [dbConnection.js] *)

Lemma connectClient_connected (m : DbConnection.Module_) (w : World) :
  DbConnection.isConnected m = true ->
  DbConnection.connectClient m w = mkOutcome (Normal m) w [].
Proof. intros H. unfold DbConnection.connectClient. now rewrite H. Qed.

Lemma connectClient_connects (m : DbConnection.Module_) (w : World) :
  DbConnection.isConnected m = false ->
  next_fault w = None ->
  DbConnection.connectClient m w =
  mkOutcome (Normal (DbConnection.mkModule (DbConnection.client m) true))
            (consume_fault w) [Connected (DbConnection.client m)].
Proof.
  intros H Hf. unfold DbConnection.connectClient. rewrite H. cbn [negb].
  unfold try_catch, bind, client_connect. rewrite Hf. reflexivity.
Qed.

Lemma connectClient_fails (m : DbConnection.Module_) (w : World) (msg : string) :
  DbConnection.isConnected m = false ->
  next_fault w = Some msg ->
  DbConnection.connectClient m w =
  mkOutcome (Throw (DriverError msg)) (consume_fault w)
            [ConnectFailed (DbConnection.client m) (DriverError msg);
             ConsoleError "Failed to connect to the database:" (DriverError msg)].
Proof.
  intros H Hf. unfold DbConnection.connectClient. rewrite H. cbn [negb].
  unfold try_catch, bind, client_connect. rewrite Hf. reflexivity.
Qed.

Lemma use_connected (u : DbConnection.Use) (m : DbConnection.Module_) (w : World) :
  DbConnection.isConnected m = true ->
  (DbConnection.use u m w).1.1 = m /\
  connect_attempts (DbConnection.use u m w).2 = [].
Proof.
  intros H. destruct u; cbn [DbConnection.use fst snd].
  - rewrite (connectClient_connected m w H). auto.
  - split; [reflexivity|]. apply neutral_client_query.
  - auto.
Qed.

Lemma uses_connected (us : list DbConnection.Use) (m : DbConnection.Module_) (w : World) :
  DbConnection.isConnected m = true ->
  (DbConnection.uses us m w).1.1 = m /\
  connect_attempts (DbConnection.uses us m w).2 = [].
Proof.
  intros H. revert w. induction us as [|u us IH]; intros w; [auto|].
  cbn [DbConnection.uses].
  destruct (use_connected u m w H) as [U1 U2].
  destruct (DbConnection.use u m w) as [[m1 w1] e1]. cbn [fst snd] in U1, U2. subst m1.
  destruct (IH w1) as [I1 I2].
  destruct (DbConnection.uses us m w1) as [[m2 w2] e2]. cbn [fst snd] in *.
  split; [exact I1|]. now rewrite connect_attempts_app, U2, I2.
Qed.

(** C10: with the flag set, [connectClient] returns at once and attempts
    nothing; a call whose [connect] resolves sets the flag; after that,
    whatever the importing code does with [connectClient] and the client,
    ending it included, the flag stays set and no connection is attempted
    again; a call whose [connect] rejects logs and rethrows, leaves the
    flag unset, and the next call attempts the connection again. *)
Theorem connectClient_flag (m : DbConnection.Module_) (w : World) :
  (DbConnection.isConnected m = true ->
   DbConnection.connectClient m w = mkOutcome (Normal m) w [] /\
   forall us,
     DbConnection.isConnected (DbConnection.uses us m w).1.1 = true /\
     connect_attempts (DbConnection.uses us m w).2 = []) /\
  (DbConnection.isConnected m = false -> next_fault w = None ->
   DbConnection.isConnected (DbConnection.use DbConnection.CallConnectClient m w).1.1 = true /\
   (DbConnection.use DbConnection.CallConnectClient m w).2 = [Connected (DbConnection.client m)]) /\
  (forall msg,
     DbConnection.isConnected m = false -> next_fault w = Some msg ->
     DbConnection.connectClient m w =
       mkOutcome (Throw (DriverError msg)) (consume_fault w)
         [ConnectFailed (DbConnection.client m) (DriverError msg);
          ConsoleError "Failed to connect to the database:" (DriverError msg)] /\
     (DbConnection.use DbConnection.CallConnectClient m w).1.1 = m /\
     connect_attempts
       (DbConnection.use DbConnection.CallConnectClient m (consume_fault w)).2 =
       [DbConnection.client m]).
Proof.
  split; [|split].
  - intros H. split; [now apply connectClient_connected|].
    intros us. destruct (uses_connected us m w H) as [-> U2]. auto.
  - intros H Hf. cbn [DbConnection.use fst snd].
    rewrite (connectClient_connects m w H Hf). auto.
  - intros msg H Hf. split; [now apply connectClient_fails|].
    cbn [DbConnection.use fst snd]. rewrite (connectClient_fails m w msg H Hf).
    split; [reflexivity|].
    destruct (next_fault (consume_fault w)) as [msg'|] eqn:Hf'.
    + now rewrite (connectClient_fails m _ msg' H Hf').
    + now rewrite (connectClient_connects m _ H Hf').
Qed.

Lemma connectClient_flag_witness :
  let m := DbConnection.mkModule 0%nat false in
  let '(m1, w1, e1) := DbConnection.use DbConnection.CallConnectClient m Sample.flaky in
  let '(m2, w2, e2) := DbConnection.use DbConnection.CallConnectClient m1 w1 in
  DbConnection.isConnected m1 = false /\
  connect_attempts e2 = [0%nat] /\
  DbConnection.isConnected m2 = true /\
  forall us,
    DbConnection.isConnected (DbConnection.uses us m2 w2).1.1 = true /\
    connect_attempts (DbConnection.uses us m2 w2).2 = [].
Proof.
  cbn. split; [reflexivity|]. split; [reflexivity|]. split; [reflexivity|].
  destruct (connectClient_flag (DbConnection.mkModule 0%nat true)
              (mkWorld Sample.db [] 0%nat (mkDate 2024 5 17))) as [H _].
  exact (proj2 (H eq_refl)).
Defined.


(* ===================================================================== *)
(** * Further properties *)
(* ===================================================================== *)

Import Terms2.

(** ** deleteInvoice *)

(** X1: no call of [deleteInvoice] reaches the store.  Whatever the id,
    the store and the fault plan, the call stops at [connectClient()],
    the binding [actions.ts] imports and [data.ts] does not export: it
    rejects with a [TypeError], attempts no connection, sends no DELETE,
    does not revalidate the path, and leaves the fault plan and the store
    as they were, an invoice of that id included. *)
Theorem deleteInvoice_never_reaches_the_store (id : string) (w : World) :
  (exists msg, observe (Actions.deleteInvoice id w) = (Rejected (TypeError msg), w, [])) /\
  forall i, In i (invoices (database w)) -> inv_id i = id ->
            In i (invoices (database (world (Actions.deleteInvoice id w)))).
Proof.
  unfold Actions.deleteInvoice. rewrite connectClient_undefined. cbn [world].
  split; [eexists; reflexivity|]. auto.
Qed.

(** ** Search *)

Lemma list_ascii_of_string_app (a b : string) :
  list_ascii_of_string (a +:+ b) = list_ascii_of_string a ++ list_ascii_of_string b.
Proof.
  induction a as [|c a IH]; [reflexivity|].
  change (c :: list_ascii_of_string (a +:+ b) =
          c :: (list_ascii_of_string a ++ list_ascii_of_string b)).
  now rewrite IH.
Qed.

Lemma fold_case_pattern (query : string) :
  fold_case (Data.pattern_of query) = ("%"%char :: fold_case query) ++ ["%"%char].
Proof.
  unfold fold_case, Data.pattern_of.
  rewrite !list_ascii_of_string_app, !map_app. reflexivity.
Qed.

Lemma matching_invoices_fold_case (q q' : string) (d : Database) :
  fold_case q = fold_case q' ->
  matching_invoices (Data.pattern_of q) d = matching_invoices (Data.pattern_of q') d.
Proof.
  intros H. unfold matching_invoices. apply list_filter_iff. intros r.
  assert (E : forall s, ilike s (Data.pattern_of q) = ilike s (Data.pattern_of q')).
  { intros s. unfold ilike.
    change (map lower (list_ascii_of_string (Data.pattern_of q)))
      with (fold_case (Data.pattern_of q)).
    change (map lower (list_ascii_of_string (Data.pattern_of q')))
      with (fold_case (Data.pattern_of q')).
    now rewrite !fold_case_pattern, H. }
  unfold invoice_search. now rewrite !E.
Qed.

(** X7: the search does not see ASCII case: two queries that differ only
    in the case of their letters get the same page from
    [fetchFilteredInvoices] and the same page count from
    [fetchInvoicesPages], whatever the store and the fault plan. *)
Theorem search_ignores_case (q q' : string) (page : Z) (w : World) :
  fold_case q = fold_case q' ->
  result (Data.fetchFilteredInvoices q page w) =
    result (Data.fetchFilteredInvoices q' page w) /\
  result (Data.fetchInvoicesPages q w) = result (Data.fetchInvoicesPages q' w).
Proof.
  intros H.
  assert (E1 : forall d,
             execute (SelectFilteredInvoices (Data.pattern_of q) Data.ITEMS_PER_PAGE
                        ((page - 1) * Data.ITEMS_PER_PAGE)) d =
             execute (SelectFilteredInvoices (Data.pattern_of q') Data.ITEMS_PER_PAGE
                        ((page - 1) * Data.ITEMS_PER_PAGE)) d).
  { intros d. unfold execute. now rewrite (matching_invoices_fold_case q q' d H). }
  assert (E2 : forall d,
             execute (CountFilteredInvoices (Data.pattern_of q)) d =
             execute (CountFilteredInvoices (Data.pattern_of q')) d).
  { intros d. unfold execute. now rewrite (matching_invoices_fold_case q q' d H). }
  split.
  - unfold Data.fetchFilteredInvoices. cbv zeta. do 2 fold_scoped.
    rewrite !scoped_run. destruct (next_fault w); [reflexivity|]. cbv beta zeta.
    unfold bind, client_query. rewrite E1.
    destruct (next_fault (connected w)); [reflexivity|].
    destruct (execute _ _) as [m|[rows d']]; reflexivity.
  - unfold Data.fetchInvoicesPages. do 2 fold_scoped.
    rewrite !scoped_run. destruct (next_fault w); [reflexivity|]. cbv beta zeta.
    unfold bind, client_query. rewrite E2.
    destruct (next_fault (connected w)); [reflexivity|].
    destruct (execute _ _) as [m|[rows d']]; [reflexivity|].
    destruct rows; reflexivity.
Qed.

Lemma search_ignores_case_witness :
  result (Data.fetchInvoicesPages "PAID" Sample.world) =
  result (Data.fetchInvoicesPages "paid" Sample.world).
Proof.
  exact (proj2 (search_ignores_case "PAID" "paid" 1 Sample.world
                  ltac:(vm_compute; reflexivity))).
Defined.

(** ** Pages and page count together *)

Lemma page_rows_run (query : string) (page : Z) (w : World) :
  1 <= page ->
  calls_succeed 2 w = true ->
  page_rows query page w =
  map to_InvoicesTable
      (take 6 (drop (Z.to_nat ((page - 1) * 6)) (ordered_matching query (database w)))).
Proof.
  intros Hp Hok. unfold page_rows.
  now rewrite (fetchFilteredInvoices_run query page w Hp Hok).
Qed.

Lemma ordered_matching_length (query : string) (d : Database) :
  Z.of_nat (length (ordered_matching query d)) =
  Z.of_nat (length (matching_invoices (Data.pattern_of query) d)).
Proof.
  unfold ordered_matching. f_equal. apply Permutation_length, merge_sort_Permutation.
Qed.

(** X8: the page count and the pages agree: with [p] the result of
    [fetchInvoicesPages], every page before page [p] has exactly 6 rows,
    page [p] has between 1 and 6, and every page after it is empty. *)
Theorem pages_agree_with_page_count (query : string) (page : Z) (w : World) :
  1 <= page ->
  calls_succeed 2 w = true ->
  let p := returned 0 (result (Data.fetchInvoicesPages query w)) in
  let rows := page_rows query page w in
  (page < p -> length rows = 6%nat) /\
  (page = p -> (1 <= length rows <= 6)%nat) /\
  (p < page -> rows = []).
Proof.
  intros Hp Hok. cbv zeta.
  rewrite (fetchInvoicesPages_run query w Hok). cbn [returned].
  rewrite (page_rows_run query page w Hp Hok).
  pose proof (Math_ceil_pages (matching_count query w)) as Hc. cbv zeta in Hc.
  unfold matching_count in Hc. rewrite <- ordered_matching_length in Hc.
  fold (matching_count query w) in Hc |- *. unfold matching_count.
  rewrite <- ordered_matching_length.
  set (l := ordered_matching query (database w)) in *.
  set (p := Data.Math_ceil _) in *. unfold Data.ITEMS_PER_PAGE in Hc.
  repeat split.
  - intros Hlt. rewrite length_map, length_take, length_drop. lia.
  - rewrite length_map, length_take, length_drop. lia.
  - rewrite length_map, length_take, length_drop. lia.
  - intros Hgt. apply nil_length_inv.
    rewrite length_map, length_take, length_drop. lia.
Qed.

Lemma pages_agree_with_page_count_witness :
  length (page_rows "alice" 1 Sample.world) = 6%nat /\
  page_rows "alice" 3 Sample.world = [].
Proof.
  destruct (pages_agree_with_page_count "alice" 1 Sample.world ltac:(lia) eq_refl)
    as (H1 & _).
  destruct (pages_agree_with_page_count "alice" 3 Sample.world ltac:(lia) eq_refl)
    as (_ & _ & H3).
  split; [apply H1|apply H3]; vm_compute; reflexivity.
Defined.

Lemma take_plus {A} (n m : nat) (l : list A) :
  take (n + m) l = take n l ++ take m (drop n l).
Proof.
  revert l. induction n as [|n IH]; intros l; [reflexivity|].
  destruct l as [|a l]; cbn; [now rewrite take_nil|]. now rewrite IH.
Qed.

Lemma chunks_concat {A} (k : nat) (l : list A) :
  concat (map (fun i => take 6 (drop (6 * i) l)) (seq 0 k)) = take (6 * k) l.
Proof.
  induction k as [|k IH]; [reflexivity|].
  rewrite seq_S, map_app, concat_app, IH. cbn [map concat plus].
  rewrite app_nil_r. replace (6 * S k)%nat with (6 * k + 6)%nat by lia.
  now rewrite take_plus.
Qed.

Lemma date_desc_antisym (a b : InvoiceRow * CustomerRow) :
  date_desc a b -> date_desc b a -> inv_date a.1 = inv_date b.1.
Proof.
  unfold date_desc. rewrite !date_leb_spec.
  destruct (inv_date a.1) as [ya ma da], (inv_date b.1) as [yb mb db].
  cbn [year month day]. intros H1 H2.
  assert (ya = yb /\ ma = mb /\ da = db) as (-> & -> & ->) by lia. reflexivity.
Qed.

(** Rows of pairwise different keys have one sorted arrangement. *)
Lemma sorted_arrangement_unique {A K} (key : A -> K) (R : relation A) (l1 l2 : list A) :
  (forall a b, R a b -> R b a -> key a = key b) ->
  NoDup (map key l1) ->
  l1 ≡ₚ l2 -> StronglySorted R l1 -> StronglySorted R l2 -> l1 = l2.
Proof.
  intros Hanti. revert l2. induction l1 as [|a l1 IH]; intros l2 Hnd Hp S1 S2.
  - symmetry. now apply Permutation_nil.
  - destruct l2 as [|b l2]; [now apply Permutation_sym, Permutation_nil_cons in Hp|].
    cbn [map] in Hnd. apply NoDup_cons in Hnd as [Ha Hnd].
    apply StronglySorted_inv in S1 as [S1 F1]. apply StronglySorted_inv in S2 as [S2 F2].
    assert (E : a = b).
    { assert (Hb : In b (a :: l1))
        by (apply (Permutation_in _ (Permutation_sym Hp)); now left).
      destruct Hb as [E|Hb]; [exact E|]. exfalso.
      assert (Hin : In a (b :: l2)) by (apply (Permutation_in _ Hp); now left).
      destruct Hin as [E|Hin]; [subst b; apply Ha, list_elem_of_In, in_map, Hb|].
      rewrite Forall_forall in F1, F2.
      assert (Hk : key a = key b).
      { apply Hanti; [apply F1|apply F2]; now apply list_elem_of_In. }
      apply Ha. rewrite Hk. now apply list_elem_of_In, in_map. }
    subst b. f_equal. apply IH; try assumption. now apply Permutation_cons_inv in Hp.
Qed.

Lemma ordered_matching_unique (query : string) (d : Database)
    (l : list (InvoiceRow * CustomerRow)) :
  NoDup (dates (matching_invoices (Data.pattern_of query) d)) ->
  l ≡ₚ matching_invoices (Data.pattern_of query) d ->
  StronglySorted date_desc l ->
  ordered_matching query d = l.
Proof.
  intros Hnd Hp Hs. unfold ordered_matching.
  apply (sorted_arrangement_unique (fun r => inv_date r.1) date_desc).
  - apply date_desc_antisym.
  - unfold dates in Hnd. now rewrite (merge_sort_Permutation _ _).
  - now rewrite (merge_sort_Permutation _ _), Hp.
  - apply StronglySorted_merge_sort; apply _.
  - exact Hs.
Qed.

(** X9: when no two matching rows have the same date, the order newest
    first is fixed, and the pages 1 to [p], with [p] the result of
    [fetchInvoicesPages] and the store in one state, put end to end are
    the matching rows in that order, whichever way [l] they were arranged
    newest first: each matching row is on exactly one page. *)
Theorem pages_partition_matching_rows (query : string) (w : World)
    (l : list (InvoiceRow * CustomerRow)) :
  calls_succeed 2 w = true ->
  NoDup (dates (matching_invoices (Data.pattern_of query) (database w))) ->
  l ≡ₚ matching_invoices (Data.pattern_of query) (database w) ->
  StronglySorted date_desc l ->
  let p := returned 0 (result (Data.fetchInvoicesPages query w)) in
  concat (map (fun i => page_rows query (Z.of_nat i + 1) w) (seq 0 (Z.to_nat p))) =
    map to_InvoicesTable l.
Proof.
  intros Hok Hnd Hperm Hsorted. cbv zeta.
  rewrite <- (ordered_matching_unique query (database w) l Hnd Hperm Hsorted).
  clear l Hnd Hperm Hsorted.
  rewrite (fetchInvoicesPages_run query w Hok). cbn [returned].
  pose proof (Math_ceil_pages (matching_count query w)) as Hc. cbv zeta in Hc.
  unfold matching_count in Hc |- *. rewrite <- ordered_matching_length in Hc |- *.
  set (l := ordered_matching query (database w)) in *.
  set (p := Data.Math_ceil _) in *. unfold Data.ITEMS_PER_PAGE in Hc.
  transitivity (concat (map (fun i => map to_InvoicesTable (take 6 (drop (6 * i) l)))
                            (seq 0 (Z.to_nat p)))).
  - f_equal. apply map_ext. intros i.
    rewrite (page_rows_run query (Z.of_nat i + 1) w ltac:(lia) Hok). fold l.
    do 3 f_equal. lia.
  - rewrite <- (map_map (fun i => take 6 (drop (6 * i) l)) (map to_InvoicesTable)).
    rewrite <- concat_map, chunks_concat. f_equal. apply take_ge. lia.
Qed.

Lemma pages_partition_matching_rows_witness :
  map it_id (page_rows "alice" 1 Sample.calendar_world ++
             page_rows "alice" 2 Sample.calendar_world) =
  ["i7"; "i2"; "i5"; "i4"; "i8"; "i1"; "i6"].
Proof.
  pose proof (pages_partition_matching_rows "alice" Sample.calendar_world
                (ordered_matching "alice" Sample.calendar) eq_refl) as H.
  assert (E : map it_id (page_rows "alice" 1 Sample.calendar_world ++
                         page_rows "alice" 2 Sample.calendar_world) =
              map it_id (map to_InvoicesTable (ordered_matching "alice" Sample.calendar))).
  { rewrite <- H.
    - vm_compute. reflexivity.
    - apply (bool_decide_unpack _). vm_compute. exact I.
    - apply merge_sort_Permutation.
    - apply StronglySorted_merge_sort; apply _. }
  rewrite E. vm_compute. reflexivity.
Defined.

(** ** The read operations only read *)

Lemma statements_app l1 l2 : statements (l1 ++ l2) = statements l1 ++ statements l2.
Proof. apply omap_app. Qed.

Lemma execute_select (s : Statement) (d : Database) :
  is_select s = true ->
  match execute s d with
  | inl _ => True
  | inr (_, d') => d' = d
  end.
Proof.
  destruct s; intros H; try discriminate H; unfold execute; try reflexivity.
  destruct (limit <? 0); [exact I|]. destruct (offset <? 0); [exact I|reflexivity].
Qed.

Lemma readonly_pure {R A} (a : A) : readonly (pure (R := R) a).
Proof. intros w. split; [reflexivity|constructor]. Qed.

Lemma readonly_return {R A} (r : R) : readonly (return_ (A := A) r).
Proof. intros w. split; [reflexivity|constructor]. Qed.

Lemma readonly_throw {R A} e : readonly (throw (R := R) (A := A) e).
Proof. intros w. split; [reflexivity|constructor]. Qed.

Lemma readonly_console_error {R} label e : readonly (console_error (R := R) label e).
Proof. intros w. split; [reflexivity|constructor]. Qed.

Lemma readonly_first_row {R A} (l : list A) : readonly (first_row (R := R) l).
Proof. destruct l; [apply readonly_throw | apply readonly_pure]. Qed.

Lemma readonly_client_query {R} c s :
  is_select s = true -> readonly (client_query (R := R) c s).
Proof.
  intros Hs w. unfold client_query.
  destruct (next_fault w); [split; [reflexivity|cbn; auto]|].
  pose proof (execute_select s (database w) Hs) as He.
  destruct (execute s (database w)) as [msg|[rows d]]; cbn.
  - split; [reflexivity|auto].
  - split; [exact He|auto].
Qed.

Lemma readonly_client_query_promise {R} c s :
  is_select s = true -> readonly (client_query_promise (R := R) c s).
Proof.
  intros Hs w. unfold client_query_promise.
  destruct (next_fault w); [split; [reflexivity|constructor]|].
  pose proof (execute_select s (database w) Hs) as He.
  destruct (execute s (database w)) as [msg|[rows d]]; cbn.
  - split; [reflexivity|constructor].
  - split; [exact He|constructor].
Qed.

Lemma readonly_await {R} {s : Statement} (p : Promise s) :
  is_select s = true -> readonly (await (R := R) p).
Proof.
  intros Hs w. unfold await.
  destruct (settled p); (split; [reflexivity|cbn; auto]).
Qed.

Lemma readonly_bind {R A B} (m : Stmt R A) (k : A -> Stmt R B) :
  readonly m -> (forall a, readonly (k a)) -> readonly (bind m k).
Proof.
  intros Hm Hk w. unfold bind. destruct (Hm w) as [H1 H2].
  destruct (m w) as [[a|r|e] w1 e1]; cbn [result world events] in *; auto.
  destruct (Hk a w1) as [H3 H4]. split; [congruence|].
  rewrite statements_app. apply Forall_app. auto.
Qed.

Lemma scoped_readonly {R A} (body : Client -> Stmt R A) (handler : js_error -> Stmt R A) :
  (forall c, readonly (body c)) -> (forall e, readonly (handler e)) ->
  readonly (scoped body handler).
Proof.
  intros Hb Hh w. rewrite scoped_run.
  destruct (next_fault w) as [msg|]; [split; [reflexivity|constructor]|].
  cbv zeta. destruct (Hb (clients w) (connected w)) as [B1 B2].
  destruct (body (clients w) (connected w)) as [[a|r|e] w1 e1];
    cbn [result world events] in *.
  - split; [exact B1|]. cbn. rewrite statements_app, app_nil_r. exact B2.
  - split; [exact B1|]. cbn. rewrite statements_app, app_nil_r. exact B2.
  - destruct (Hh e w1) as [H1 H2]. split; [cbn in *; congruence|].
    cbn. rewrite !statements_app, app_nil_r. apply Forall_app. auto.
Qed.

Create HintDb reads.
#[local] Hint Resolve readonly_pure readonly_return readonly_throw readonly_console_error
  readonly_first_row : reads.
#[local] Hint Extern 2 (readonly (bind _ _)) => apply readonly_bind; [|intro] : reads.
#[local] Hint Extern 1 (readonly (client_query _ _)) =>
  apply readonly_client_query; reflexivity : reads.
#[local] Hint Extern 1 (readonly (client_query_promise _ _)) =>
  apply readonly_client_query_promise; reflexivity : reads.
#[local] Hint Extern 1 (readonly (await _)) =>
  apply readonly_await; reflexivity : reads.

Lemma fetchCardData_readonly f : readonly (Data.fetchCardData f).
Proof.
  unfold Data.fetchCardData, Promise_all3. cbv zeta. fold_scoped.
  apply scoped_readonly; intros; [|auto with reads].
  do 3 (apply readonly_bind; [auto with reads|intro]).
  apply readonly_bind; [auto 12 with reads|intros [[r1 r2] r3]].
  auto 12 with reads.
Qed.

(** X10: a read operation never changes the store and sends nothing but
    SELECT statements, whatever the fault plan and however it ends. *)
Theorem reads_leave_the_store (formatCurrency : Z -> string) (op : Operation) (w : World) :
  is_read op = true ->
  database (exec formatCurrency op w).1.2 = database w /\
  Forall (fun s => is_select s = true) (statements (exec formatCurrency op w).2).
Proof.
  intros Hr.
  destruct op; try discriminate; cbn [exec observe fst snd];
    try apply fetchCardData_readonly;
    autounfold with ops; cbv zeta; fold_scoped;
    apply scoped_readonly; intros; auto 12 with reads.
Qed.

Lemma reads_leave_the_store_witness :
  database (exec Sample.formatCurrency FetchCardData Sample.failing_statement).1.2 =
  Sample.db.
Proof.
  exact (proj1 (reads_leave_the_store Sample.formatCurrency FetchCardData
                  Sample.failing_statement eq_refl)).
Defined.

(** ** Field errors *)

Lemma safeParse_issues (raw : Zod.RawInvoice) (issues : list Zod.ZodIssue) :
  Zod.safeParse raw = Zod.Failure issues ->
  issues = Zod.issues_of (Zod.parse_customerId (Zod.raw_customerId raw)) ++
           Zod.issues_of (Zod.parse_amount (Zod.raw_amount raw)) ++
           Zod.issues_of (Zod.parse_status (Zod.raw_status raw)).
Proof.
  unfold Zod.safeParse.
  destruct (Zod.parse_customerId _), (Zod.parse_amount _), (Zod.parse_status _);
    intros H; now inversion H.
Qed.

Lemma parse_amount_paths v :
  Forall (fun i => Zod.issue_path i = "amount") (Zod.issues_of (Zod.parse_amount v)).
Proof.
  unfold Zod.parse_amount. cbv zeta.
  destruct (is_nan _); [cbn; auto|]. destruct (PrimFloat.leb _ _); cbn; auto.
Qed.

Lemma filter_same_path (k : string) (l : list Zod.ZodIssue) :
  Forall (fun i => Zod.issue_path i = k) l ->
  filter (fun i => Zod.issue_path i = k) l = l.
Proof.
  intros H. induction H as [|i l Hi _ IH]; [reflexivity|].
  rewrite filter_cons, IH. now rewrite decide_True.
Qed.

Lemma fieldErrors_keys (formData : Form.FormData) (issues : list Zod.ZodIssue) :
  Zod.safeParse (Actions.raw_of formData) = Zod.Failure issues ->
  Zod.fieldErrors issues !! "customerId" =
    (if is_string (Form.get formData "customerId") then None
     else Some ["Please select a customer."]) /\
  (Zod.fieldErrors issues !! "amount" = None <->
     greater_than_zero (Form.get formData "amount") = true) /\
  (Zod.fieldErrors issues !! "status" = None <->
     is_status (Form.get formData "status") = true) /\
  (forall k, k <> "customerId" -> k <> "amount" -> k <> "status" ->
             Zod.fieldErrors issues !! k = None).
Proof.
  intros H. apply safeParse_issues in H. subst issues.
  unfold Actions.raw_of. cbn [Zod.raw_customerId Zod.raw_amount Zod.raw_status].
  pose proof (parse_customerId_paths (Form.get formData "customerId")) as Pc.
  pose proof (parse_amount_paths (Form.get formData "amount")) as Pa.
  pose proof (parse_status_paths (Form.get formData "status")) as Ps.
  repeat split.
  - rewrite fieldErrors_lookup, !filter_app.
    rewrite (filter_other_path "amount" "customerId" _ ltac:(done) Pa).
    rewrite (filter_other_path "status" "customerId" _ ltac:(done) Ps).
    rewrite (filter_same_path _ _ Pc), !app_nil_r.
    destruct (Form.get formData "customerId") as [[s|f]|]; reflexivity.
  - rewrite fieldErrors_lookup, !filter_app.
    rewrite (filter_other_path "customerId" "amount" _ ltac:(done) Pc).
    rewrite (filter_other_path "status" "amount" _ ltac:(done) Ps).
    rewrite (filter_same_path _ _ Pa), app_nil_r. cbn [app].
    destruct (greater_than_zero _) eqn:Ha; [reflexivity|].
    destruct (parse_amount_rejected _ Ha) as (i & ->). discriminate.
  - intros Ha. rewrite fieldErrors_lookup, !filter_app.
    rewrite (filter_other_path "customerId" "amount" _ ltac:(done) Pc).
    rewrite (filter_other_path "status" "amount" _ ltac:(done) Ps).
    rewrite (filter_same_path _ _ Pa), app_nil_r. cbn [app].
    now rewrite (parse_amount_positive _ Ha).
  - rewrite fieldErrors_lookup, !filter_app.
    rewrite (filter_other_path "customerId" "status" _ ltac:(done) Pc).
    rewrite (filter_other_path "amount" "status" _ ltac:(done) Pa).
    rewrite (filter_same_path _ _ Ps). cbn [app].
    pose proof (parse_status_spec (Form.get formData "status")) as Hs.
    destruct (is_status _); [reflexivity|].
    destruct Hs as (i & ->). discriminate.
  - intros Hs'. rewrite fieldErrors_lookup, !filter_app.
    rewrite (filter_other_path "customerId" "status" _ ltac:(done) Pc).
    rewrite (filter_other_path "amount" "status" _ ltac:(done) Pa).
    rewrite (filter_same_path _ _ Ps). cbn [app].
    pose proof (parse_status_spec (Form.get formData "status")) as Hs.
    rewrite Hs' in Hs. destruct Hs as (st & _ & ->). reflexivity.
  - intros k H1 H2 H3. rewrite fieldErrors_lookup, !filter_app.
    rewrite (filter_other_path "customerId" k _ ltac:(congruence) Pc).
    rewrite (filter_other_path "amount" k _ ltac:(congruence) Pa).
    rewrite (filter_other_path "status" k _ ltac:(congruence) Ps).
    reflexivity.
Qed.

(** X11: when a form fails validation, the payload of [createInvoice]
    names exactly the failing fields: its field errors have the key
    "customerId" (with "Please select a customer.") exactly when that entry
    is not a string, the key "amount" exactly when the amount is not a
    number greater than 0, the key "status" exactly when the status is
    neither "pending" nor "paid", and no other key. *)
Theorem createInvoice_field_errors (formData : Form.FormData) (w : World) :
  passes_validation formData = false ->
  exists fieldErrors,
    result (Actions.createInvoice formData w) =
      Return (Actions.mkState (Some fieldErrors)
                (Some "Missing Fields. Failed to Create Invoice")) /\
    fieldErrors !! "customerId" =
      (if is_string (Form.get formData "customerId") then None
       else Some ["Please select a customer."]) /\
    (fieldErrors !! "amount" = None <->
       greater_than_zero (Form.get formData "amount") = true) /\
    (fieldErrors !! "status" = None <->
       is_status (Form.get formData "status") = true) /\
    (forall k, k <> "customerId" -> k <> "amount" -> k <> "status" ->
               fieldErrors !! k = None).
Proof.
  intros Hv. pose proof (safeParse_spec formData) as Hs. rewrite Hv in Hs.
  destruct Hs as (issues & Hs). exists (Zod.fieldErrors issues).
  rewrite (createInvoice_invalid _ _ _ Hs). split; [reflexivity|].
  now apply fieldErrors_keys.
Qed.

Lemma createInvoice_field_errors_witness :
  exists fieldErrors,
    result (Actions.createInvoice [("status", Form.FString "paid")] Sample.world) =
      Return (Actions.mkState (Some fieldErrors)
                (Some "Missing Fields. Failed to Create Invoice")) /\
    fieldErrors !! "customerId" = Some ["Please select a customer."] /\
    fieldErrors !! "status" = None.
Proof.
  destruct (createInvoice_field_errors [("status", Form.FString "paid")] Sample.world)
    as (fe & Hr & Hc & _ & Hs & _); [vm_compute; reflexivity|].
  exists fe. split; [exact Hr|]. split; [exact Hc|]. apply Hs. reflexivity.
Defined.

(** ** fetchCardData *)

Lemma calls_succeed_S (n : nat) (w : World) :
  calls_succeed (S n) w = true ->
  next_fault w = None /\ calls_succeed n (consume_fault w) = true.
Proof.
  destruct w as [d fs cl td]. unfold calls_succeed, next_fault, consume_fault.
  cbn [faults]. destruct fs as [|[m|] fs]; cbn; intros H; try discriminate; auto.
  now rewrite take_nil.
Qed.

Lemma calls_succeed_connected (n : nat) (w : World) :
  calls_succeed (S n) w = true ->
  next_fault w = None /\ calls_succeed n (connected w) = true.
Proof. intros H. now apply calls_succeed_S in H. Qed.

Lemma calls_succeed_set_database (n : nat) (w : World) (d : Database) :
  calls_succeed n (set_database w d) = calls_succeed n w.
Proof. reflexivity. Qed.

Lemma sum_status_default (s : string) (l : list InvoiceRow) :
  default 0 (match l with [] => None | _ => Some (sum_status s l) end) = sum_status s l.
Proof. now destruct l. Qed.

Lemma client_query_promise_ok {R} c s w rows d :
  next_fault w = None -> execute s (database w) = inr (rows, d) ->
  client_query_promise (R := R) c s w =
  mkOutcome (Normal (mkPromise c (inr rows))) (set_database (consume_fault w) d) [].
Proof. intros H E. unfold client_query_promise. now rewrite H, E. Qed.

Lemma Promise_all3_fulfilled {R} {s1 s2 s3 : Statement} c
    (r1 : rows_of s1) (r2 : rows_of s2) (r3 : rows_of s3) (w : World) :
  Promise_all3 (R := R) (mkPromise c (inr r1)) (mkPromise c (inr r2))
               (mkPromise c (inr r3)) w =
  mkOutcome (Normal (r1, r2, r3)) w [Queried c s1; Queried c s2; Queried c s3].
Proof. reflexivity. Qed.

(** [await client.query(...)] is the call followed by [await]. *)
Lemma client_query_awaited {R} c s (w : World) :
  bind (client_query_promise c s) await w = client_query (R := R) c s w.
Proof.
  unfold bind, client_query_promise, client_query, await.
  destruct (next_fault w); [reflexivity|].
  destruct (execute s (database w)) as [msg|[rows d]]; reflexivity.
Qed.

Lemma fetchCardData_run (formatCurrency : Z -> string) (w : World) :
  calls_succeed 4 w = true ->
  Data.fetchCardData formatCurrency w =
  mkOutcome
    (Return (Data.mkCardData
               (Z.of_nat (length (customers (database w))))
               (Z.of_nat (length (invoices (database w))))
               (formatCurrency (sum_status "paid" (invoices (database w))))
               (formatCurrency (sum_status "pending" (invoices (database w))))))
    (mkWorld (database w) (tl (tl (tl (tl (faults w))))) (S (clients w)) (today w))
    [Connected (clients w);
     Queried (clients w) CountInvoices;
     Queried (clients w) CountCustomers;
     Queried (clients w) SumInvoicesByStatus;
     Ended (clients w)].
Proof.
  intros Hok. apply calls_succeed_connected in Hok as [H1 Hok].
  apply calls_succeed_S in Hok as [H2 Hok].
  apply calls_succeed_S in Hok as [H3 Hok].
  apply calls_succeed_S in Hok as [H4 _].
  unfold Data.fetchCardData. fold_scoped. rewrite scoped_run, H1. cbv zeta.
  erewrite bind_Normal by (apply client_query_promise_ok; [exact H2 | reflexivity]).
  erewrite bind_Normal by (apply client_query_promise_ok; [exact H3 | reflexivity]).
  erewrite bind_Normal by (apply client_query_promise_ok; [exact H4 | reflexivity]).
  erewrite bind_Normal by apply Promise_all3_fulfilled.
  cbn [first_row]. rewrite !bind_pure. cbn [count paid pending].
  cbn [database set_database consume_fault connected].
  destruct (invoices (database w)) eqn:E; reflexivity.
Qed.

(** X12: when its connection and its three statements go through,
    [fetchCardData] returns the number of customers, the number of
    invoices, and the formatted sums of the paid and of the pending
    amounts; on an empty invoices table the sums are NULL and the result
    carries [formatCurrency] of 0 instead.  All three statements run on one
    client, which is ended once. *)
Theorem fetchCardData_totals (formatCurrency : Z -> string) (w : World) :
  calls_succeed 4 w = true ->
  result (Data.fetchCardData formatCurrency w) =
  Return (Data.mkCardData
            (Z.of_nat (length (customers (database w))))
            (Z.of_nat (length (invoices (database w))))
            (formatCurrency (sum_status "paid" (invoices (database w))))
            (formatCurrency (sum_status "pending" (invoices (database w))))) /\
  (invoices (database w) = [] ->
   result (Data.fetchCardData formatCurrency w) =
   Return (Data.mkCardData (Z.of_nat (length (customers (database w)))) 0
                           (formatCurrency 0) (formatCurrency 0))) /\
  events (Data.fetchCardData formatCurrency w) =
    [Connected (clients w);
     Queried (clients w) CountInvoices;
     Queried (clients w) CountCustomers;
     Queried (clients w) SumInvoicesByStatus;
     Ended (clients w)].
Proof.
  intros Hok. rewrite (fetchCardData_run formatCurrency w Hok). cbn [result events].
  split; [reflexivity|]. split; [|reflexivity].
  intros E. rewrite E. reflexivity.
Qed.

Lemma fetchCardData_totals_witness :
  result (Data.fetchCardData Sample.formatCurrency Sample.world) =
  Return (Data.mkCardData 2 8 "$150000" "$5706").
Proof.
  destruct (fetchCardData_totals Sample.formatCurrency Sample.world eq_refl) as (H & _).
  rewrite H. vm_compute. reflexivity.
Defined.

(** ** getUser and fetchCustomers *)

Lemma getUser_run (email : string) (w : World) :
  calls_succeed 2 w = true ->
  Data.getUser email w =
  mkOutcome
    (Return (first (filter (fun u => usr_email u = email) (users (database w)))))
    (served w)
    [Connected (clients w); Queried (clients w) (SelectUserByEmail email);
     Ended (clients w)].
Proof.
  intros Hok. apply calls_succeed_2 in Hok as [H1 H2].
  unfold Data.getUser. fold_scoped. rewrite scoped_run, H1. cbv zeta.
  erewrite bind_Normal by (apply client_query_ok; [exact H2 | reflexivity]).
  reflexivity.
Qed.

Lemma head_filter_first {A} (P : A -> Prop) `{forall x, Decision (P x)} (l : list A)
    (u : A) :
  head (filter P l) = Some u ->
  P u /\ exists before after,
           l = before ++ u :: after /\ forall v, In v before -> ~ P v.
Proof.
  induction l as [|a l IH]; [discriminate|].
  rewrite filter_cons. destruct (decide (P a)) as [Ha|Ha]; cbn [head].
  - intros [= <-]. split; [exact Ha|]. exists [], l. split; [reflexivity|]. intros v [].
  - intros Hu. destruct (IH Hu) as (Pu & before & after & -> & Hb).
    split; [exact Pu|]. exists (a :: before), after. split; [reflexivity|].
    intros v [<-|Hv]; [exact Ha|now apply Hb].
Qed.

(** X13: when the connection and the statement go through, [getUser]
    returns a user of the store whose email is the one asked for, the
    first such row (no row before it in the table has that email), and
    returns [undefined] exactly when no user has that email. *)
Theorem getUser_by_email (email : string) (w : World) :
  calls_succeed 2 w = true ->
  exists found,
    result (Data.getUser email w) = Return found /\
    (forall u, found = Some u ->
       usr_email u = email /\
       exists before after,
         users (database w) = before ++ u :: after /\
         forall v, In v before -> usr_email v <> email) /\
    (found = None <-> forall u, In u (users (database w)) -> usr_email u <> email).
Proof.
  intros Hok. rewrite (getUser_run email w Hok). cbn [result].
  eexists. split; [reflexivity|]. split.
  - intros u Hu. unfold first in Hu. now apply head_filter_first in Hu.
  - assert (Hf : forall u, In u (filter (fun u => usr_email u = email)
                                        (users (database w)))
                           <-> usr_email u = email /\ In u (users (database w))).
    { intros u. rewrite <- !list_elem_of_In, list_elem_of_filter. reflexivity. }
    destruct (filter _ _) as [|u0 l]; cbn [first head].
    + split; [|reflexivity]. intros _ u Hu E. apply (Hf u). auto.
    + split; [discriminate|]. intros H. exfalso.
      destruct (proj1 (Hf u0) (or_introl eq_refl)) as [E Hu]. exact (H u0 Hu E).
Qed.

Lemma getUser_by_email_witness :
  result (Data.getUser "nobody@nextmail.com" Sample.world) = Return None /\
  exists u,
    result (Data.getUser "user@nextmail.com" Sample.world) = Return (Some u) /\
    usr_email u = "user@nextmail.com".
Proof.
  split.
  - destruct (getUser_by_email "nobody@nextmail.com" Sample.world eq_refl)
      as (found & Hr & _ & Hn).
    rewrite Hr. f_equal. apply Hn. cbn. intros u [<-|[]]. discriminate.
  - destruct (getUser_by_email "user@nextmail.com" Sample.world eq_refl)
      as (found & Hr & Hs & Hn).
    destruct found as [u|].
    + exists u. split; [exact Hr|]. exact (proj1 (Hs u eq_refl)).
    + exfalso. apply (proj1 Hn eq_refl (mkUser "u1" "user@nextmail.com" "$2b$10$hash"));
        [left; reflexivity|reflexivity].
Defined.

#[local] Instance name_asc_total {A} (name : A -> string) : Total (name_asc name).
Proof. intros a b. unfold name_asc. apply String.leb_total. Qed.

Lemma fetchCustomers_run (w : World) :
  calls_succeed 2 w = true ->
  result (Data.fetchCustomers w) =
  Return (merge_sort (name_asc cf_name)
            (map (fun c => mkCustomerField (cus_id c) (cus_name c))
                 (customers (database w)))).
Proof.
  intros Hok. apply calls_succeed_2 in Hok as [H1 H2].
  unfold Data.fetchCustomers. fold_scoped. rewrite scoped_run, H1. cbv zeta.
  erewrite bind_Normal by (apply client_query_ok; [exact H2 | reflexivity]).
  reflexivity.
Qed.

(** X14: when the connection and the statement go through,
    [fetchCustomers] returns one (id, name) pair for every customer row,
    no more and no fewer, in ascending order of the names. *)
Theorem fetchCustomers_all_sorted (w : World) :
  calls_succeed 2 w = true ->
  exists fields,
    result (Data.fetchCustomers w) = Return fields /\
    fields ≡ₚ map (fun c => mkCustomerField (cus_id c) (cus_name c))
                  (customers (database w)) /\
    length fields = length (customers (database w)) /\
    Sorted (name_asc cf_name) fields.
Proof.
  intros Hok. rewrite (fetchCustomers_run w Hok). eexists. split; [reflexivity|].
  split; [apply merge_sort_Permutation|]. split.
  - rewrite (Permutation_length (merge_sort_Permutation _ _)). apply length_map.
  - apply Sorted_merge_sort. apply _.
Qed.

Lemma fetchCustomers_all_sorted_witness :
  result (Data.fetchCustomers Sample.world) =
  Return [mkCustomerField "c1" "Alice Smith"; mkCustomerField "c2" "Bob Jones"].
Proof.
  destruct (fetchCustomers_all_sorted Sample.world eq_refl) as (fields & Hr & _).
  rewrite Hr. rewrite (fetchCustomers_run Sample.world eq_refl) in Hr.
  injection Hr as <-. vm_compute. reflexivity.
Defined.

(** ** The invoice lists and the customers *)

Lemma like_percent_prefix (p s : list ascii) :
  like p s = true -> like ("%"%char :: p) s = true.
Proof. intros H. destruct s; cbn; now rewrite H. Qed.

Lemma like_percent (s : list ascii) : like ["%"%char] s = true.
Proof. induction s as [|a s IH]; [reflexivity|]. exact IH. Qed.

Lemma empty_query_matches (r : InvoiceRow * CustomerRow) :
  invoice_search (Data.pattern_of EmptyString) r = true.
Proof.
  unfold invoice_search, ilike.
  change (map lower (list_ascii_of_string (Data.pattern_of EmptyString)))
    with ["%"%char; "%"%char].
  now rewrite (like_percent_prefix _ _ (like_percent _)).
Qed.

Lemma filter_all {A} (P : A -> Prop) `{forall x, Decision (P x)} (l : list A) :
  (forall x, P x) -> filter P l = l.
Proof.
  intros HP. induction l as [|a l IH]; [reflexivity|].
  rewrite filter_cons, IH. now rewrite decide_True.
Qed.

Lemma ordered_matching_empty_query (d : Database) :
  ordered_matching EmptyString d = merge_sort date_desc (invoices_join_customers d).
Proof.
  unfold ordered_matching, matching_invoices.
  now rewrite (filter_all _ _ empty_query_matches).
Qed.

Lemma fetchLatestInvoices_run (formatCurrency : Z -> string) (w : World) :
  calls_succeed 2 w = true ->
  result (Data.fetchLatestInvoices formatCurrency w) =
  Return (map (fun invoice =>
                 mkLatestInvoice (formatCurrency (li_amount invoice))
                   (li_name invoice) (li_image_url invoice)
                   (li_email invoice) (li_id invoice))
            (map to_LatestInvoice
               (take 5 (merge_sort date_desc (invoices_join_customers (database w)))))).
Proof.
  intros Hok. apply calls_succeed_2 in Hok as [H1 H2].
  unfold Data.fetchLatestInvoices. fold_scoped. rewrite scoped_run, H1. cbv zeta.
  erewrite bind_Normal by (apply client_query_ok; [exact H2 | reflexivity]).
  reflexivity.
Qed.

(** X15: when no two invoices joined to a customer have the same date,
    the order newest first is fixed, and however the joined rows [l] were
    arranged newest first, [fetchLatestInvoices] returns the first 5 of
    them and page 1 of [fetchFilteredInvoices] for the empty query the
    first 6: the latest invoices are, id by id, the first 5 rows of that
    page, with [formatCurrency] of the same amounts. *)
Theorem latest_invoices_head_the_list (formatCurrency : Z -> string) (w : World)
    (l : list (InvoiceRow * CustomerRow)) :
  calls_succeed 2 w = true ->
  NoDup (dates (invoices_join_customers (database w))) ->
  l ≡ₚ invoices_join_customers (database w) ->
  StronglySorted date_desc l ->
  let latest := returned [] (result (Data.fetchLatestInvoices formatCurrency w)) in
  let first_page := page_rows EmptyString 1 w in
  latest = map (latest_row formatCurrency) (take 5 l) /\
  first_page = map to_InvoicesTable (take 6 l) /\
  map li_id latest = take 5 (map it_id first_page) /\
  map li_amount latest = map formatCurrency (take 5 (map it_amount first_page)).
Proof.
  intros Hok Hnd Hperm Hsorted. cbv zeta.
  assert (Hm : matching_invoices (Data.pattern_of EmptyString) (database w) =
               invoices_join_customers (database w)).
  { unfold matching_invoices. apply (filter_all _ _ empty_query_matches). }
  assert (E : merge_sort date_desc (invoices_join_customers (database w)) = l).
  { rewrite <- ordered_matching_empty_query.
    apply ordered_matching_unique; [now rewrite Hm|now rewrite Hm|exact Hsorted]. }
  rewrite (fetchLatestInvoices_run formatCurrency w Hok). cbn [returned].
  rewrite (page_rows_run EmptyString 1 w ltac:(lia) Hok).
  rewrite ordered_matching_empty_query, E.
  change (Z.to_nat ((1 - 1) * 6)) with 0%nat. rewrite drop_0.
  split; [now rewrite map_map|]. split; [reflexivity|].
  rewrite !map_map, !firstn_map, !map_map, !take_take. split; reflexivity.
Qed.

Lemma latest_invoices_head_the_list_witness :
  map li_id (returned [] (result (Data.fetchLatestInvoices Sample.formatCurrency
                                    Sample.calendar_world))) =
  ["i7"; "i2"; "i5"; "i4"; "i8"] /\
  map it_id (page_rows EmptyString 1 Sample.calendar_world) =
  ["i7"; "i2"; "i5"; "i4"; "i8"; "i1"].
Proof.
  destruct (latest_invoices_head_the_list Sample.formatCurrency Sample.calendar_world
              (merge_sort date_desc (invoices_join_customers Sample.calendar)) eq_refl)
    as (H1 & H2 & _).
  - apply (bool_decide_unpack _). vm_compute. exact I.
  - apply merge_sort_Permutation.
  - apply StronglySorted_merge_sort; apply _.
  - rewrite H1, H2. split; vm_compute; reflexivity.
Defined.

Lemma in_take_drop {A} (x : A) (n k : nat) (l : list A) :
  In x (take n (drop k l)) -> In x l.
Proof.
  intros H. rewrite <- (take_drop k l). apply in_or_app. right.
  rewrite <- (take_drop n (drop k l)). apply in_or_app. now left.
Qed.

Lemma joined_row_origin (d : Database) (r : InvoiceRow * CustomerRow) :
  In r (invoices_join_customers d) ->
  In r.1 (invoices d) /\ In r.2 (customers d) /\ inv_customer_id r.1 = cus_id r.2.
Proof.
  unfold invoices_join_customers. intros H.
  apply in_flat_map in H as (i & Hi & H).
  apply in_map_iff in H as (c & <- & Hc).
  apply list_elem_of_In, list_elem_of_filter in Hc as [E Hc].
  apply list_elem_of_In in Hc. auto.
Qed.

Lemma page_rows_origin (query : string) (page : Z) (w : World) (row : InvoicesTable) :
  1 <= page ->
  calls_succeed 2 w = true ->
  In row (page_rows query page w) ->
  exists i c,
    row = to_InvoicesTable (i, c) /\
    In i (invoices (database w)) /\ In c (customers (database w)) /\
    inv_customer_id i = cus_id c /\
    invoice_search (Data.pattern_of query) (i, c) = true.
Proof.
  intros Hp Hok H. rewrite (page_rows_run query page w Hp Hok) in H.
  apply in_map_iff in H as ([i c] & <- & H). apply in_take_drop in H.
  unfold ordered_matching in H.
  apply (Permutation_in _ (merge_sort_Permutation _ _)) in H.
  apply list_elem_of_In, list_elem_of_filter in H as [Hs H].
  apply list_elem_of_In, joined_row_origin in H as (Hi & Hc & E).
  exists i, c. auto.
Qed.

(** X16: every row of a page of [fetchFilteredInvoices] comes from an
    invoice of the store together with a customer of the store whose id is
    the invoice's customer id, and the pair passes the search filter: an
    invoice whose customer id names no customer is on no page. *)
Theorem listed_invoices_have_a_customer (query : string) (page : Z) (w : World)
    (row : InvoicesTable) :
  1 <= page ->
  calls_succeed 2 w = true ->
  In row (page_rows query page w) ->
  exists i c,
    row = to_InvoicesTable (i, c) /\
    In i (invoices (database w)) /\ In c (customers (database w)) /\
    inv_customer_id i = cus_id c /\
    invoice_search (Data.pattern_of query) (i, c) = true.
Proof. apply page_rows_origin. Qed.

Lemma listed_invoices_have_a_customer_witness :
  exists i c,
    In i (invoices Sample.db) /\ In c (customers Sample.db) /\
    inv_customer_id i = cus_id c /\ inv_id i = "i3" /\ cus_name c = "Bob Jones".
Proof.
  destruct (listed_invoices_have_a_customer "bob" 1 Sample.world
              (to_InvoicesTable
                 (mkInvoice "i3" "c2" 99900 "paid" (mkDate 2023 12 24), Sample.bob)))
    as (i & c & E & Hi & Hc & Hj & _).
  - lia.
  - reflexivity.
  - vm_compute. left. reflexivity.
  - exists i, c. injection E as E1 _ _ _ E5 _ _. auto.
Defined.

(** ** createInvoice never reaches the store *)

(** X18: no form makes [createInvoice] open a connection or send a
    statement: for every form the call only logs and leaves the world as it
    was; it returns the validation payload when the form fails the schema,
    and throws the [ReferenceError] when the form passes. *)
Theorem createInvoice_never_reaches_the_store (formData : Form.FormData) (w : World) :
  world (Actions.createInvoice formData w) = w /\
  events (Actions.createInvoice formData w) = [ConsoleLog "validatedFields"] /\
  (if passes_validation formData
   then result (Actions.createInvoice formData w) = Throw (ReferenceError "amount")
   else exists payload, result (Actions.createInvoice formData w) = Return payload).
Proof.
  pose proof (safeParse_spec formData) as Hs.
  destruct (passes_validation formData) eqn:Hv.
  - rewrite (createInvoice_valid formData w Hv). auto.
  - destruct Hs as (issues & Hs). rewrite (createInvoice_invalid _ _ _ Hs). eauto.
Qed.

(** ** A page number below 1 *)

(** X19: [fetchFilteredInvoices] does not guard the page number: for a
    page below 1 the offset it computes is negative, the server rejects
    the statement, and the call rejects with "Failed to fetch invoices."
    after logging the server's error and ending its client. *)
Theorem fetchFilteredInvoices_page_below_one (query : string) (currentPage : Z)
    (w : World) :
  currentPage < 1 ->
  calls_succeed 2 w = true ->
  exists cause,
    Data.fetchFilteredInvoices query currentPage w =
    mkOutcome (Throw (Error_ "Failed to fetch invoices." None)) (served w)
      [Connected (clients w);
       QueryFailed (clients w)
         (SelectFilteredInvoices (Data.pattern_of query) Data.ITEMS_PER_PAGE
            ((currentPage - 1) * Data.ITEMS_PER_PAGE)) cause;
       ConsoleError "Database Error:" cause;
       Ended (clients w)].
Proof.
  intros Hp Hok. apply calls_succeed_2 in Hok as [H1 H2].
  unfold Data.fetchFilteredInvoices. cbv zeta. fold_scoped.
  rewrite scoped_run, H1. cbv beta zeta.
  erewrite bind_Throw.
  2:{ apply client_query_rejected; [exact H2|].
      unfold execute, Data.ITEMS_PER_PAGE. change (6 <? 0) with false. cbv iota.
      destruct (Z.ltb_spec ((currentPage - 1) * 6) 0) as [_|Hge]; [reflexivity|lia]. }
  eexists. reflexivity.
Qed.

Lemma fetchFilteredInvoices_page_below_one_witness :
  result (Data.fetchFilteredInvoices "alice" 0 Sample.world) =
  Throw (Error_ "Failed to fetch invoices." None).
Proof.
  destruct (fetchFilteredInvoices_page_below_one "alice" 0 Sample.world ltac:(lia) eq_refl)
    as (cause & ->).
  reflexivity.
Defined.

(** ** fetchFilteredCustomers *)

Lemma fetchFilteredCustomers_run (formatCurrency : Z -> string) (query : string)
    (w : World) :
  calls_succeed 2 w = true ->
  result (Data.fetchFilteredCustomers formatCurrency query w) =
  Return (map (fun customer =>
                 mkCustomersTable (ct_id customer) (ct_name customer)
                   (ct_email customer) (ct_image_url customer)
                   (ct_total_invoices customer)
                   (formatCurrency (ct_total_pending customer))
                   (formatCurrency (ct_total_paid customer)))
            (merge_sort (name_asc (@ct_name Z))
               (map (customer_totals (database w))
                  (remove_dups
                     (filter (fun c => customer_search (Data.pattern_of query) c = true)
                             (customers (database w))))))).
Proof.
  intros Hok. apply calls_succeed_2 in Hok as [H1 H2].
  unfold Data.fetchFilteredCustomers. fold_scoped. rewrite scoped_run, H1. cbv zeta.
  erewrite bind_Normal by (apply client_query_ok; [exact H2 | reflexivity]).
  reflexivity.
Qed.

Lemma remove_dups_NoDup_id {A} `{EqDecision A} (l : list A) :
  NoDup l -> remove_dups l = l.
Proof.
  induction 1 as [|a l Ha Hl IH]; [reflexivity|].
  cbn [remove_dups]. destruct (decide_rel elem_of a l) as [Hin|_].
  - exfalso. apply Ha. now apply list_elem_of_In.
  - now rewrite IH.
Qed.

Lemma filter_none {A} (P : A -> Prop) `{forall x, Decision (P x)} (l : list A) :
  (forall x, In x l -> ~ P x) -> filter P l = [].
Proof.
  induction l as [|a l IH]; intros HP; [reflexivity|].
  rewrite filter_cons, decide_False by (apply HP; now left).
  apply IH. intros x Hx. apply HP. now right.
Qed.

Lemma filter_eq_once {A} `{EqDecision A} (c : A) (l : list A) :
  NoDup l -> In c l -> filter (fun c' => c' = c) l = [c].
Proof.
  induction 1 as [|a l Ha Hl IH]; intros Hc; [destruct Hc|].
  rewrite filter_cons. destruct (decide (a = c)) as [->|Hne].
  - f_equal. apply filter_none. intros x Hx ->. apply Ha. now apply list_elem_of_In.
  - apply IH. destruct Hc as [E|Hc]; [contradiction|exact Hc].
Qed.

Lemma Sorted_map {A B} (f : A -> B) (R1 : relation A) (R2 : relation B) l :
  (forall x y, R1 x y -> R2 (f x) (f y)) ->
  Sorted R1 l -> Sorted R2 (map f l).
Proof.
  intros Hf H. induction H as [|a l Hl IH Ha]; cbn; constructor.
  - exact IH.
  - destruct Ha; cbn; constructor. auto.
Qed.

(** X20: when the customer rows are pairwise different and the connection
    and the statement go through, [fetchFilteredCustomers] returns exactly
    one row for every customer whose name or email matches the query, also
    for a customer without invoices, and no other row; the row carries the
    number of that customer's invoices and [formatCurrency] of the sums of
    their pending and of their paid amounts; the rows come in ascending
    order of the names. *)
Theorem fetchFilteredCustomers_totals (formatCurrency : Z -> string) (query : string)
    (w : World) :
  calls_succeed 2 w = true ->
  NoDup (customers (database w)) ->
  exists rows,
    result (Data.fetchFilteredCustomers formatCurrency query w) = Return rows /\
    rows ≡ₚ map (customer_summary formatCurrency (database w))
                (filter (fun c => customer_search (Data.pattern_of query) c = true)
                        (customers (database w))) /\
    Sorted (name_asc (@ct_name string)) rows.
Proof.
  intros Hok Hnd. rewrite (fetchFilteredCustomers_run formatCurrency query w Hok).
  eexists. split; [reflexivity|].
  assert (Hnd' : NoDup (filter (fun c => customer_search (Data.pattern_of query) c = true)
                               (customers (database w)))) by now apply NoDup_filter.
  rewrite (remove_dups_NoDup_id _ Hnd'). split.
  - rewrite (merge_sort_Permutation _ _), map_map.
    rewrite (map_ext_in _ (customer_summary formatCurrency (database w)));
      [reflexivity|]. intros c Hc.
    apply list_elem_of_In, list_elem_of_filter in Hc as [_ Hc].
    apply list_elem_of_In in Hc.
    unfold customer_totals, customer_summary. cbv zeta.
    rewrite (filter_eq_once c _ Hnd Hc). cbn [length ct_id ct_name ct_email ct_image_url
      ct_total_invoices ct_total_pending ct_total_paid].
    change (Z.of_nat 1) with 1. rewrite !Z.mul_1_l. reflexivity.
  - apply (Sorted_map _ (name_asc (@ct_name Z))); [intros x y Hxy; exact Hxy|].
    apply Sorted_merge_sort. apply _.
Qed.

Lemma fetchFilteredCustomers_totals_witness :
  exists rows,
    result (Data.fetchFilteredCustomers Sample.formatCurrency "BOB" Sample.world) =
      Return rows /\
    rows ≡ₚ [mkCustomersTable "c2" "Bob Jones" "bob@example.com" "/customers/bob.png"
               1 "$0" "$99900"].
Proof.
  destruct (fetchFilteredCustomers_totals Sample.formatCurrency "BOB" Sample.world eq_refl)
    as (rows & Hr & Hp & _).
  - apply (bool_decide_unpack _). vm_compute. exact I.
  - exists rows. split; [exact Hr|]. rewrite Hp.
    match goal with
    | |- ?l ≡ₚ ?r => assert (E : l = r) by (vm_compute; reflexivity); now rewrite E
    end.
Defined.

(** ** The connection test script *)

(** X21: the connection test never rejects: every failure is caught and
    logged.  It ends its client only at the end of the [try] block: when
    all three driver calls go through, the client connected is ended once;
    when the connection is made and one of the two statements fails, the
    error is logged and the client is never ended; when the connection
    fails, nothing was opened. *)
Theorem testConnection_ends_client_only_on_success (db : string) (tables : list string)
    (w : World) :
  let o := ConnectionTest.testConnection db tables w in
  result o = Normal tt /\
  (calls_succeed 3 w = true ->
   opened (events o) = [clients w] /\ closed (events o) = [clients w] /\
   List.filter is_log (events o) = []) /\
  (next_fault w = None -> calls_succeed 3 w = false ->
   opened (events o) = [clients w] /\ closed (events o) = [] /\
   exists msg,
     In (ConsoleError "Database connection error:" (DriverError msg)) (events o)) /\
  (forall msg, next_fault w = Some msg ->
   opened (events o) = [] /\ closed (events o) = [] /\
   In (ConsoleError "Database connection error:" (DriverError msg)) (events o)).
Proof.
  destruct w as [d fs cl td]. cbv zeta.
  destruct tables as [|t ts];
    destruct fs as [|[m1|] [|[m2|] [|[m3|] fs]]];
    (split; [vm_compute; reflexivity|]);
    (split; [intros H3; try (vm_compute in H3; discriminate); vm_compute; auto|]);
    (split;
     [intros Hf H3; vm_compute in Hf, H3; try discriminate;
      (vm_compute; split; [reflexivity|split; [reflexivity|]];
       eexists; repeat first [left; reflexivity | right])
     |intros msg Hf; vm_compute in Hf; try discriminate;
      (injection Hf as <-; vm_compute; auto)]).
Qed.

Lemma testConnection_ends_client_only_on_success_witness :
  closed (events (ConnectionTest.testConnection "dashboard" ["invoices"; "customers"]
                    Sample.failing_statement)) = [] /\
  opened (events (ConnectionTest.testConnection "dashboard" ["invoices"; "customers"]
                    Sample.failing_statement)) = [0%nat] /\
  closed (events (ConnectionTest.testConnection "dashboard" ["invoices"; "customers"]
                    Sample.world)) = [0%nat].
Proof.
  destruct (testConnection_ends_client_only_on_success "dashboard"
              ["invoices"; "customers"] Sample.failing_statement) as (_ & _ & Hf & _).
  destruct (testConnection_ends_client_only_on_success "dashboard"
              ["invoices"; "customers"] Sample.world) as (_ & Hs & _).
  destruct (Hf eq_refl eq_refl) as (Ho & Hc & _).
  destruct (Hs eq_refl) as (_ & Hc' & _).
  auto.
Defined.

(** ** The shared client of [dbConnection.js] *)

Lemma use_one_client (u : DbConnection.Use) (m : DbConnection.Module_) (w : World) :
  DbConnection.client (DbConnection.use u m w).1.1 = DbConnection.client m /\
  clients (DbConnection.use u m w).1.2 = clients w /\
  names_only (DbConnection.client m) (DbConnection.use u m w).2.
Proof.
  unfold names_only. destruct u as [|s|]; cbn [DbConnection.use fst snd].
  - unfold DbConnection.state_after.
    destruct (DbConnection.isConnected m) eqn:H.
    + rewrite (connectClient_connected m w H). cbn. auto.
    + destruct (next_fault w) as [msg|] eqn:Hf.
      * rewrite (connectClient_fails m w msg H Hf). cbn. auto.
      * rewrite (connectClient_connects m w H Hf). cbn. auto.
  - unfold client_query. destruct (next_fault w) as [msg|].
    + cbn. auto.
    + destruct (execute s (database w)) as [msg|[rows d]]; cbn; auto.
  - cbn. auto.
Qed.

(** X22: code that imports [dbConnection.js] works with one client for
    the life of the module: whatever sequence of [connectClient] calls,
    statements and [client.end()] it runs, no further client is created,
    the module keeps the client it was loaded with, and every connection
    attempt, statement and end is made on that client. *)
Theorem dbConnection_one_client (us : list DbConnection.Use) (m : DbConnection.Module_)
    (w : World) :
  DbConnection.client (DbConnection.uses us m w).1.1 = DbConnection.client m /\
  clients (DbConnection.uses us m w).1.2 = clients w /\
  names_only (DbConnection.client m) (DbConnection.uses us m w).2.
Proof.
  revert m w. induction us as [|u us IH]; intros m w.
  - cbn. split; [reflexivity|]. split; [reflexivity|]. constructor.
  - cbn [DbConnection.uses].
    destruct (use_one_client u m w) as (U1 & U2 & U3).
    destruct (DbConnection.use u m w) as [[m1 w1] e1]. cbn [fst snd] in U1, U2, U3.
    destruct (IH m1 w1) as (I1 & I2 & I3).
    destruct (DbConnection.uses us m1 w1) as [[m2 w2] e2]. cbn [fst snd] in *.
    split; [congruence|]. split; [congruence|].
    unfold names_only in *. apply Forall_app. split; [exact U3|]. now rewrite <- U1.
Qed.

(** ** fetchRevenue *)

(** X23: when the connection and the statement go through,
    [fetchRevenue] returns the whole revenue table in the order the store
    holds it, on a client of its own that it ends, and logs nothing. *)
Theorem fetchRevenue_whole_table (w : World) :
  calls_succeed 2 w = true ->
  Data.fetchRevenue w =
  mkOutcome (Return (revenue (database w))) (served w)
    [Connected (clients w); Queried (clients w) SelectRevenue; Ended (clients w)].
Proof.
  intros Hok. apply calls_succeed_2 in Hok as [H1 H2].
  unfold Data.fetchRevenue. fold_scoped. rewrite scoped_run, H1. cbv zeta.
  erewrite bind_Normal by (apply client_query_ok; [exact H2 | reflexivity]).
  reflexivity.
Qed.

Lemma fetchRevenue_whole_table_witness :
  result (Data.fetchRevenue Sample.world) =
  Return [mkRevenue "Jan" 2000; mkRevenue "Feb" 1800].
Proof.
  now rewrite (fetchRevenue_whole_table Sample.world eq_refl).
Defined.
